(** * Email drip campaign API: a shallow embedding of [main.py]

    The development follows the source top to bottom: the request and
    response models with their field constraints, the Cohere client
    dependency, the three nested generation loops, the CSV export and the
    health probe.  Python exceptions are a result type, the external
    generation service, the random generator and the clock live in an
    explicit world that every handler threads through. *)

From Stdlib Require Import String Ascii List ZArith Lia Bool DecimalString.
From Stdlib Require DecimalZ DecimalPos DecimalFacts.
Import ListNotations.
Open Scope string_scope.
Open Scope list_scope.
Open Scope Z_scope.

Set Implicit Arguments.

(** ** Strings as Python builds them *)

Module PyString.

Definition chr (n : nat) : string := String (ascii_of_nat n) EmptyString.

Definition newline : string := chr 10.
Definition carriage_return : string := chr 13.
Definition dquote : string := chr 34.

(** [str(i)] for a Python [int]. *)
Definition str_int (z : Z) : string := NilZero.string_of_int (Z.to_int z).

(** [sep.join(parts)]. *)
Definition join (sep : string) (parts : list string) : string :=
  String.concat sep parts.

(** The ASCII code points [str.strip()] removes: tab, line feed, vertical
    tab, form feed, carriage return, the four separators 28..31 and space.
    Whitespace outside ASCII is several bytes long here and is left in
    place by this model. *)
Definition is_space (c : ascii) : bool :=
  let n := nat_of_ascii c in
  ((9 <=? n) && (n <=? 13) || (28 <=? n) && (n <=? 32))%nat.

Fixpoint lstrip (s : string) : string :=
  match s with
  | EmptyString => EmptyString
  | String c rest => if is_space c then lstrip rest else s
  end.

Fixpoint rev_onto (s acc : string) : string :=
  match s with
  | EmptyString => acc
  | String c rest => rev_onto rest (String c acc)
  end.

Definition reverse (s : string) : string := rev_onto s EmptyString.

Definition rstrip (s : string) : string := reverse (lstrip (reverse s)).

Definition strip (s : string) : string := rstrip (lstrip s).

(** [needle in haystack]. *)
Fixpoint contains (needle haystack : string) : bool :=
  if String.prefix needle haystack then true
  else match haystack with
       | EmptyString => false
       | String _ rest => contains needle rest
       end.

(** Left padding of a decimal with zeros, as [%02d] and friends do. *)
Fixpoint zeros (n : nat) : string :=
  match n with
  | O => EmptyString
  | S k => String "0" (zeros k)
  end.

Definition zfill (width : nat) (z : Z) : string :=
  let d := str_int z in
  (zeros (width - String.length d) ++ d)%string.

End PyString.

(** ** Exceptions and results *)

(** Every exception met in the handlers derives from [Exception].  The
    handlers tell apart only [HTTPException], which carries a status code
    and a detail, from the rest, of which they read [str(e)]. *)
Inductive PyExc : Type :=
| HTTPException (status_code : Z) (detail : string)
| OtherException (message : string).

Inductive Result (A : Type) : Type :=
| Raise (e : PyExc)
| Return (a : A).
Arguments Raise {A} e.
Arguments Return {A} a.

Definition rbind {A B} (r : Result A) (k : A -> Result B) : Result B :=
  match r with
  | Raise e => Raise e
  | Return a => k a
  end.

Declare Scope result_scope.
Delimit Scope result_scope with result.
Notation "x <- r ;; k" := (rbind r (fun x => k))
  (at level 100, r at next level, right associativity) : result_scope.


Definition IndexError : PyExc := OtherException "list index out of range".

(** [xs[0]]. *)
Definition first {A} (xs : list A) : Result A :=
  match xs with
  | [] => Raise IndexError
  | x :: _ => Return x
  end.

(** ** Input models *)

Inductive Group := GroupA | GroupB.
Inductive Objective := awareness | nurturing | upselling.
Inductive Interest := high | medium | low.
Inductive Tone := formal | casual | enthusiastic | neutral.

Definition Objective_str (o : Objective) : string :=
  match o with
  | awareness => "awareness"
  | nurturing => "nurturing"
  | upselling => "upselling"
  end.

Definition Interest_str (i : Interest) : string :=
  match i with high => "high" | medium => "medium" | low => "low" end.

Record Contact := mkContact {
  name : string;
  email : string;
  job_title : string;
  group : Group
}.

Record Account := mkAccount {
  account_name : string;
  industry : string;
  pain_points : list string;
  contacts : list Contact;
  campaign_objective : Objective;
  interest : Interest;
  tone : Tone;
  language : string
}.

Record EmailVariant := mkEmailVariant {
  subject : string;
  body : string;
  call_to_action : string
}.

Record Email := mkEmail { variants : list EmailVariant }.

Record Campaign := mkCampaign {
  campaign_account_name : string;
  emails : list Email
}.

Record CampaignRequest := mkCampaignRequest {
  accounts : list Account;
  number_of_emails : Z
}.

Record CampaignResponse := mkCampaignResponse { campaigns : list Campaign }.

(** ** Request validation

    The request body arrives as JSON.  [RawRequest] is that document after
    JSON decoding and before the models have looked at it: enumerated
    fields are still strings, fields with a default may be absent, and no
    bound has been checked. *)

Record RawContact := mkRawContact {
  raw_name : string;
  raw_email : string;
  raw_job_title : string;
  raw_group : option string
}.

Record RawAccount := mkRawAccount {
  raw_account_name : string;
  raw_industry : string;
  raw_pain_points : list string;
  raw_contacts : list RawContact;
  raw_campaign_objective : string;
  raw_interest : option string;
  raw_tone : option string;
  raw_language : string
}.

Record RawRequest := mkRawRequest {
  raw_accounts : list RawAccount;
  raw_number_of_emails : Z
}.

(** One entry of a validation report: where, and which constraint. *)
Inductive Constraint :=
| MinLength (n : nat)
| MaxLength (n : nat)
| MinItems (n : nat)
| MaxItems (n : nat)
| GreaterThan (bound : Z)
| LessEqual (bound : Z)
| LiteralOf (allowed : list string)
| EmailSyntax.

Inductive Loc := LocField (f : string) | LocIndex (i : nat).

Record ValidationIssue := mkIssue { loc : list Loc; broken : Constraint }.

Definition Validated (A : Type) : Type := (list ValidationIssue + A)%type.

Module Validate.

Definition issue (where_ : list Loc) (c : Constraint) : list ValidationIssue :=
  [mkIssue where_ c].

(** [Field(..., min_length=lo, max_length=hi)] on a [str].  Lengths are
    counted in bytes here, which is the number of characters for ASCII
    text. *)
Definition bounded_str (where_ : list Loc) (lo hi : nat) (s : string)
  : list ValidationIssue :=
  let n := String.length s in
  if (n <? lo)%nat then issue where_ (MinLength lo)
  else if (hi <? n)%nat then issue where_ (MaxLength hi)
  else [].

(** [Field(..., min_items=lo)] with an optional [max_items]. *)
Definition bounded_items {A} (where_ : list Loc) (lo : nat) (hi : option nat)
           (xs : list A) : list ValidationIssue :=
  let n := List.length xs in
  if (n <? lo)%nat then issue where_ (MinItems lo)
  else match hi with
       | Some h => if (h <? n)%nat then issue where_ (MaxItems h) else []
       | None => []
       end.

Definition parse_group (s : string) : option Group :=
  if String.eqb s "A" then Some GroupA
  else if String.eqb s "B" then Some GroupB
  else None.

Definition parse_objective (s : string) : option Objective :=
  if String.eqb s "awareness" then Some awareness
  else if String.eqb s "nurturing" then Some nurturing
  else if String.eqb s "upselling" then Some upselling
  else None.

Definition parse_interest (s : string) : option Interest :=
  if String.eqb s "high" then Some high
  else if String.eqb s "medium" then Some medium
  else if String.eqb s "low" then Some low
  else None.

Definition parse_tone (s : string) : option Tone :=
  if String.eqb s "formal" then Some formal
  else if String.eqb s "casual" then Some casual
  else if String.eqb s "enthusiastic" then Some enthusiastic
  else if String.eqb s "neutral" then Some neutral
  else None.

(** A [Literal[...]] field: the value read, or the issue raised. *)
Definition literal_field {A} (where_ : list Loc) (allowed : list string)
           (parse : string -> option A) (s : string)
  : list ValidationIssue * option A :=
  match parse s with
  | Some v => ([], Some v)
  | None => (issue where_ (LiteralOf allowed), None)
  end.

(** The same with a default for an absent field. *)
Definition literal_default {A} (where_ : list Loc) (allowed : list string)
           (parse : string -> option A) (default : A) (s : option string)
  : list ValidationIssue * option A :=
  match s with
  | None => ([], Some default)
  | Some v => literal_field where_ allowed parse v
  end.

(** Validation of each element of a list field, with its index in the
    location. *)
Fixpoint each {A B} (validate : list Loc -> A -> list ValidationIssue * option B)
         (where_ : list Loc) (i : nat) (xs : list A)
  : list ValidationIssue * option (list B) :=
  match xs with
  | [] => ([], Some [])
  | x :: rest =>
      let '(issues, v) := validate (where_ ++ [LocIndex i]) x in
      let '(issues', vs) := each validate where_ (S i) rest in
      (issues ++ issues',
       match v, vs with
       | Some b, Some bs => Some (b :: bs)
       | _, _ => None
       end)
  end.

Section WithEmailSyntax.

(** [EmailStr] defers to an e-mail syntax checker that is not part of
    the program. *)
Variable email_ok : string -> bool.

Definition contact (where_ : list Loc) (c : RawContact)
  : list ValidationIssue * option Contact :=
  let i_name := bounded_str (where_ ++ [LocField "name"]) 1 100 (raw_name c) in
  let i_email := if email_ok (raw_email c) then []
                 else issue (where_ ++ [LocField "email"]) EmailSyntax in
  let i_job := bounded_str (where_ ++ [LocField "job_title"]) 1 100 (raw_job_title c) in
  let '(i_group, g) :=
    literal_default (where_ ++ [LocField "group"]) ["A"; "B"] parse_group GroupA
                    (raw_group c) in
  let issues := i_name ++ i_email ++ i_job ++ i_group in
  (issues,
   match issues, g with
   | [], Some g => Some (mkContact (raw_name c) (raw_email c) (raw_job_title c) g)
   | _, _ => None
   end).

Definition account (where_ : list Loc) (a : RawAccount)
  : list ValidationIssue * option Account :=
  let i_name := bounded_str (where_ ++ [LocField "account_name"]) 1 200 (raw_account_name a) in
  let i_industry := bounded_str (where_ ++ [LocField "industry"]) 1 100 (raw_industry a) in
  let i_pain := bounded_items (where_ ++ [LocField "pain_points"]) 1 (Some 5%nat)
                              (raw_pain_points a) in
  let i_count := bounded_items (where_ ++ [LocField "contacts"]) 1 None (raw_contacts a) in
  let '(i_contacts, cs) := each contact (where_ ++ [LocField "contacts"]) 0 (raw_contacts a) in
  let '(i_objective, o) :=
    literal_field (where_ ++ [LocField "campaign_objective"])
                  ["awareness"; "nurturing"; "upselling"] parse_objective
                  (raw_campaign_objective a) in
  let '(i_interest, i) :=
    literal_default (where_ ++ [LocField "interest"]) ["high"; "medium"; "low"]
                    parse_interest medium (raw_interest a) in
  let '(i_tone, t) :=
    literal_default (where_ ++ [LocField "tone"])
                    ["formal"; "casual"; "enthusiastic"; "neutral"]
                    parse_tone neutral (raw_tone a) in
  let i_language := bounded_str (where_ ++ [LocField "language"]) 1 200 (raw_language a) in
  let issues := i_name ++ i_industry ++ i_pain ++ i_count ++ i_contacts
                ++ i_objective ++ i_interest ++ i_tone ++ i_language in
  (issues,
   match issues, cs, o, i, t with
   | [], Some cs, Some o, Some i, Some t =>
       Some (mkAccount (raw_account_name a) (raw_industry a) (raw_pain_points a)
                       cs o i t (raw_language a))
   | _, _, _, _, _ => None
   end).

(** [Field(..., gt=0, le=10)] on [number_of_emails]. *)
Definition count (where_ : list Loc) (n : Z) : list ValidationIssue :=
  if n <=? 0 then issue where_ (GreaterThan 0)
  else if 10 <? n then issue where_ (LessEqual 10)
  else [].

Definition request (r : RawRequest) : Validated CampaignRequest :=
  let i_count := bounded_items [LocField "accounts"] 1 (Some 10%nat) (raw_accounts r) in
  let '(i_accounts, accs) := each account [LocField "accounts"] 0 (raw_accounts r) in
  let i_number := count [LocField "number_of_emails"] (raw_number_of_emails r) in
  let issues := i_count ++ i_accounts ++ i_number in
  match issues, accs with
  | [], Some accs => inr (mkCampaignRequest accs (raw_number_of_emails r))
  | _, _ => inl issues
  end.

End WithEmailSyntax.

End Validate.

(** ** The [csv] writer, default dialect

    Comma separated, double quote as quote character, minimal quoting,
    quotes doubled, lines ended by carriage return and line feed. *)

Module Csv.

Import PyString.

Definition special (c : ascii) : bool :=
  let n := nat_of_ascii c in
  ((n =? 44) || (n =? 34) || (n =? 13) || (n =? 10))%nat.

Fixpoint any_special (s : string) : bool :=
  match s with
  | EmptyString => false
  | String c rest => special c || any_special rest
  end.

Fixpoint double_quotes (s : string) : string :=
  match s with
  | EmptyString => EmptyString
  | String c rest =>
      if (nat_of_ascii c =? 34)%nat
      then String c (String c (double_quotes rest))
      else String c (double_quotes rest)
  end.

Definition quoted (s : string) : string :=
  (dquote ++ double_quotes s ++ dquote)%string.

Definition write_field (s : string) : string :=
  if any_special s then quoted s else s.

(** A row made of one empty field is written quoted, so that the line is
    not blank. *)
Definition line (row : list string) : string :=
  match row with
  | [EmptyString] => (quoted EmptyString ++ carriage_return ++ newline)%string
  | _ => (join "," (map write_field row) ++ carriage_return ++ newline)%string
  end.

(** [writer.writerow(row)] on a [StringIO] that holds [output]. *)
Definition writerow (output : string) (row : list string) : string :=
  (output ++ line row)%string.

End Csv.

(** ** The world outside the handlers *)

(** Keyword arguments of [client.generate].  The sampling temperature 0.7
    is kept as the exact decimal [temperature_num / temperature_den]. *)
Record GenerateArgs := mkGenerateArgs {
  model : string;
  prompt : string;
  max_tokens : Z;
  temperature_num : Z;
  temperature_den : Z
}.

(** What [client.generate] hands back: an exception, or the texts of
    [response.generations] in order. *)
Definition Reply : Type := Result (list string).

(** Everything the program takes from its platform without defining it:
    the Python evaluator behind [eval], subscripting and the [str] field
    check of the response model, the text of [str(e)] for an
    [HTTPException], and the remote generation service with a state of its
    own. *)
Class Platform := {
  PyObj : Type;
  py_eval : string -> Result PyObj;
  py_getitem : PyObj -> string -> Result PyObj;
  pydantic_str : PyObj -> option string;
  validation_error_str : list string -> string;
  http_exception_str : Z -> string -> string;
  email_syntax_ok : string -> bool;
  Service : Type;
  cohere_generate : string -> GenerateArgs -> Service -> Reply * Service
}.

Record DateTime := mkDateTime {
  year : Z; month : Z; day : Z;
  hour : Z; minute : Z; second : Z;
  microsecond : Z
}.

(** One outbound call, as seen on the wire. *)
Record Call := mkCall { call_args : GenerateArgs; call_reply : Reply }.

Section Handlers.

Context {P : Platform}.

(** [str(e)]. *)
Definition str_exc (e : PyExc) : string :=
  match e with
  | HTTPException code detail => http_exception_str code detail
  | OtherException message => message
  end.

(** The state a handler runs against.  [calls] is the chronological
    record of the requests sent to the generation service; the program
    never reads it. *)
Record World := mkWorld {
  environ : string -> option string;
  service : Service;
  entropy : nat -> nat;
  draws : nat;
  now : DateTime;
  calls : list Call
}.

Definition M (A : Type) : Type := World -> Result A * World.

Definition ret {A} (a : A) : M A := fun w => (Return a, w).

Definition raise {A} (e : PyExc) : M A := fun w => (Raise e, w).

Definition bind {A B} (m : M A) (k : A -> M B) : M B :=
  fun w =>
    match m w with
    | (Raise e, w') => (Raise e, w')
    | (Return a, w') => k a w'
    end.

Definition lift {A} (r : Result A) : M A := fun w => (r, w).

(** [try: m  except Exception as e: handler e]. *)
Definition try_except {A} (m : M A) (handler : PyExc -> M A) : M A :=
  fun w =>
    match m w with
    | (Raise e, w') => handler e w'
    | (Return a, w') => (Return a, w')
    end.

Declare Scope handler_scope.
Delimit Scope handler_scope with handler.
Notation "x <- m ;; k" := (bind m (fun x => k))
  (at level 100, m at next level, right associativity) : handler_scope.

(** [acc = []; for x in xs: acc.append(body(x))], started from any [acc]. *)
Fixpoint for_append {A B} (xs : list A) (body : A -> M B) (acc : list B)
  : M (list B) :=
  match xs with
  | [] => ret acc
  | x :: rest => (b <- body x ;; for_append rest body (acc ++ [b]))%handler
  end.

(** [range(n)]. *)
Definition range (n : Z) : list Z := map Z.of_nat (seq 0 (Z.to_nat n)).

(** [enumerate(xs, start)]. *)
Fixpoint enumerate {A} (start : Z) (xs : list A) : list (Z * A) :=
  match xs with
  | [] => []
  | x :: rest => (start, x) :: enumerate (start + 1) rest
  end.

(** [os.getenv(key)]. *)
Definition getenv (key : string) : M (option string) :=
  fun w => (Return (environ w key), w).

(** [random.choice(xs)]: one draw from the generator. *)
Definition random_choice {A} (xs : list A) : M A :=
  fun w =>
    match xs with
    | [] => (Raise (OtherException "Cannot choose from an empty sequence"), w)
    | x :: _ =>
        let i := (entropy w (draws w) mod List.length xs)%nat in
        (Return (nth i xs x),
         mkWorld (environ w) (service w) (entropy w) (S (draws w)) (now w) (calls w))
    end.

(** [datetime.now()]. *)
Definition datetime_now : M DateTime := fun w => (Return (now w), w).

(** ** The Cohere client dependency *)

(** [cohere.Client(api_key)]: building the client is taken to send
    nothing. *)
Record Client := mkClient { api_key : string }.

(** [client.generate(model=..., prompt=..., max_tokens=..., temperature=...)]:
    the request goes out, the service moves on and the exchange is on
    record whether it raised or not. *)
Definition client_generate (client : Client) (args : GenerateArgs) : M (list string) :=
  fun w =>
    let '(reply, service') := cohere_generate (api_key client) args (service w) in
    (reply,
     mkWorld (environ w) service' (entropy w) (draws w) (now w)
             (calls w ++ [mkCall args reply])).

(** [if not api_key]: unset, or set to the empty string. *)
Definition falsy (v : option string) : bool :=
  match v with
  | None => true
  | Some s => (String.length s =? 0)%nat
  end.

Definition lifespan_startup : M unit :=
  (key <- getenv "COHERE_API_KEY" ;;
   if falsy key
   then raise (OtherException "COHERE_API_KEY environment variable is not set")
   else ret tt)%handler.

Definition get_cohere_client : M Client :=
  (key <- getenv "COHERE_API_KEY" ;;
   match key with
   | Some k => if falsy (Some k)
               then raise (HTTPException 500 "Cohere API key not found")
               else ret (mkClient k)
   | None => raise (HTTPException 500 "Cohere API key not found")
   end)%handler.

(** ** Generation *)

Import PyString.

Definition indent : string := "        ".

(** The f-string of [generate_email_content].  Its only expression that
    can raise is [account.contacts[0]]. *)
Definition build_prompt (account : Account) (email_number total_emails : Z)
           (tone : string) : Result string :=
  (contact0 <- first (contacts account) ;;
   Return
     (String.concat EmptyString
        [ newline;
          indent; "Create a personalized email for the following business account:"; newline;
          indent; "Company: "; account_name account; newline;
          indent; "Industry: "; industry account; newline;
          indent; "Pain Points: "; join ", " (pain_points account); newline;
          indent; "Campaign Stage: Email "; str_int email_number; " of ";
                  str_int total_emails; newline;
          indent; "Campaign Objective: "; Objective_str (campaign_objective account); newline;
          indent; "Recipient Job Title: "; job_title contact0; newline;
          newline;
          indent; "Interest: "; Interest_str (interest account); newline;
          indent; "Tone: "; tone; newline;
          indent; "Language: "; language account; newline;
          newline;
          indent; "Generate a JSON response with:"; newline;
          indent; "1. An engaging and catchy subject line"; newline;
          indent; "2. Personalized email body"; newline;
          indent; "3. Clear call-to-action"; newline;
          newline;
          indent; "Format the response as valid JSON with keys: ";
                  dquote; "subject"; dquote; ", ";
                  dquote; "body"; dquote; ", ";
                  dquote; "call_to_action"; dquote; newline;
          indent ]))%result.

Definition generate_args (prompt : string) : GenerateArgs :=
  mkGenerateArgs "command-xlarge-nightly" prompt 300 7 10.

(** [EmailVariant(subject=s, body=b, call_to_action=c)]: the model checks
    the three fields and reports every one that is not a [str]. *)
Definition not_str (field : string) (v : PyObj) : list string :=
  match pydantic_str v with
  | Some _ => []
  | None => [field]
  end.

Definition EmailVariant_init (s b c : PyObj) : Result EmailVariant :=
  match pydantic_str s, pydantic_str b, pydantic_str c with
  | Some s', Some b', Some c' => Return (mkEmailVariant s' b' c')
  | _, _, _ =>
      Raise (OtherException
               (validation_error_str
                  (not_str "subject" s ++ not_str "body" b
                   ++ not_str "call_to_action" c)))
  end.

(** From [response.generations[0].text.strip()] to the variant appended. *)
Definition variant_of_generations (generations : list string) : Result EmailVariant :=
  (text <- first generations ;;
   email_data <- py_eval (strip text) ;;
   s <- py_getitem email_data "subject" ;;
   b <- py_getitem email_data "body" ;;
   c <- py_getitem email_data "call_to_action" ;;
   EmailVariant_init s b c)%result.

Definition generate_email_content (client : Client) (account : Account)
           (email_number total_emails : Z) : M (list EmailVariant) :=
  for_append ["formal"; "casual"]
    (fun tone =>
       prompt <- lift (build_prompt account email_number total_emails tone) ;;
       try_except
         (generations <- client_generate client (generate_args prompt) ;;
          lift (variant_of_generations generations))
         (fun e =>
            raise (HTTPException 500
                     ("Error generating email variant: " ++ str_exc e)%string)))%handler
    [].

Definition set_group (contact : Contact) (g : Group) : Contact :=
  mkContact (name contact) (email contact) (job_title contact) g.

(** The loop that reassigns [contact.group] in place; the account is the
    same object afterwards, with the new groups. *)
Definition assign_groups (account : Account) : M Account :=
  (contacts' <- for_append (contacts account)
                  (fun contact =>
                     g <- random_choice [GroupA; GroupB] ;;
                     ret (set_group contact g))
                  [] ;;
   ret (mkAccount (account_name account) (industry account) (pain_points account)
                  contacts' (campaign_objective account) (interest account)
                  (tone account) (language account)))%handler.

(** Inside the [try] block [account] is the object with its groups
    reassigned; the handler reads the name, which the reassignment leaves
    alone. *)
Definition generate_campaign (client : Client) (account : Account)
           (number_of_emails : Z) : M Campaign :=
  try_except
    (account <- assign_groups account ;;
     emails <- for_append (range number_of_emails)
                 (fun i =>
                    email_variants <-
                      generate_email_content client account (i + 1) number_of_emails ;;
                    ret (mkEmail email_variants))
                 [] ;;
     ret (mkCampaign (account_name account) emails))%handler
    (fun e =>
       raise (HTTPException 500
                ("Error generating campaign for " ++ account_name account ++ ": "
                 ++ str_exc e)%string)).

Definition generate_campaigns (request : CampaignRequest) (client : Client)
  : M CampaignResponse :=
  try_except
    (campaigns <- for_append (accounts request)
                    (fun account =>
                       generate_campaign client account (number_of_emails request))
                    [] ;;
     ret (mkCampaignResponse campaigns))%handler
    (fun e =>
       raise (HTTPException 500
                ("Error generating campaigns: " ++ str_exc e)%string)).

(** ** CSV export *)

Definition csv_header : list string :=
  ["Account Name"; "Email Number"; "Variant"; "Subject"; "Body"; "Call to Action"].

Definition csv_row (campaign : Campaign) (i variant_idx : Z) (variant : EmailVariant)
  : list string :=
  [ campaign_account_name campaign;
    ("Email " ++ str_int i)%string;
    ("Variant " ++ str_int variant_idx)%string;
    subject variant;
    body variant;
    call_to_action variant ].

(** The three nested [for] loops over the response; [output] is the text
    held by the [StringIO] behind the writer. *)
Definition write_variants (campaign : Campaign) (i : Z) (email : Email)
           (output : string) : string :=
  fold_left
    (fun output '(variant_idx, variant) =>
       Csv.writerow output (csv_row campaign i variant_idx variant))
    (enumerate 1 (variants email)) output.

Definition write_emails (campaign : Campaign) (output : string) : string :=
  fold_left
    (fun output '(i, email) => write_variants campaign i email output)
    (enumerate 1 (emails campaign)) output.

Definition write_campaigns (response : CampaignResponse) (output : string) : string :=
  fold_left (fun output campaign => write_emails campaign output)
            (campaigns response) output.

(** [now.strftime('%Y%m%d_%H%M%S')]. *)
Definition strftime_compact (t : DateTime) : string :=
  (zfill 4 (year t) ++ zfill 2 (month t) ++ zfill 2 (day t) ++ "_"
   ++ zfill 2 (hour t) ++ zfill 2 (minute t) ++ zfill 2 (second t))%string.

(** [now.isoformat()] of a naive [datetime]. *)
Definition isoformat (t : DateTime) : string :=
  (zfill 4 (year t) ++ "-" ++ zfill 2 (month t) ++ "-" ++ zfill 2 (day t) ++ "T"
   ++ zfill 2 (hour t) ++ ":" ++ zfill 2 (minute t) ++ ":" ++ zfill 2 (second t)
   ++ (if Z.eqb (microsecond t) 0 then EmptyString
       else "." ++ zfill 6 (microsecond t)))%string.

Record StreamingResponse := mkStreamingResponse {
  content : list string;
  media_type : string;
  headers : list (string * string)
}.

Definition export_campaigns_csv (request : CampaignRequest) (client : Client)
  : M StreamingResponse :=
  try_except
    (campaigns_response <- generate_campaigns request client ;;
     let output := Csv.writerow EmptyString csv_header in
     let output := write_campaigns campaigns_response output in
     t <- datetime_now ;;
     let filename := ("campaigns_" ++ strftime_compact t ++ ".csv")%string in
     ret (mkStreamingResponse
            [output]
            "text/csv"
            [ ("Content-Disposition", ("attachment; filename=" ++ filename)%string);
              ("Content-Type", "text/csv") ]))%handler
    (fun e =>
       raise (HTTPException 500
                ("Error exporting campaigns to CSV: " ++ str_exc e)%string)).

(** ** Health probe *)

Record HealthPayload := mkHealthPayload {
  status : string;
  timestamp : string;
  version : string;
  cohere_api_configured : bool
}.

Definition health_check : M HealthPayload :=
  (t <- datetime_now ;;
   ret (mkHealthPayload "healthy" (isoformat t) "1.0.0" true))%handler.

(** ** The routes

    What the web framework does around an endpoint function: it resolves
    the [Depends] parameters, validates the body against the request
    model and only then calls the function.  A body that fails validation
    is answered with 422, an [HTTPException] with its own status code and
    detail, any other exception with a bare 500. *)

Inductive HttpBody :=
| JsonCampaigns (response : CampaignResponse)
| CsvAttachment (response : StreamingResponse)
| JsonHealth (payload : HealthPayload)
| JsonDetail (detail : string)
| JsonValidationErrors (issues : list ValidationIssue)
| InternalServerError.

Record HttpResponse := mkHttpResponse { http_status : Z; http_body : HttpBody }.

Definition error_response (e : PyExc) : HttpResponse :=
  match e with
  | HTTPException code detail => mkHttpResponse code (JsonDetail detail)
  | OtherException _ => mkHttpResponse 500 InternalServerError
  end.

Definition respond {A} (ok : A -> HttpBody) (m : M A) : World -> HttpResponse * World :=
  fun w =>
    match m w with
    | (Return a, w') => (mkHttpResponse 200 (ok a), w')
    | (Raise e, w') => (error_response e, w')
    end.

Definition route {A} (endpoint : CampaignRequest -> Client -> M A)
           (ok : A -> HttpBody) (raw : RawRequest) : World -> HttpResponse * World :=
  fun w =>
    match get_cohere_client w with
    | (Raise e, w') => (error_response e, w')
    | (Return client, w') =>
        match Validate.request email_syntax_ok raw with
        | inl issues => (mkHttpResponse 422 (JsonValidationErrors issues), w')
        | inr request => respond ok (endpoint request client) w'
        end
    end.

Definition post_generate_campaigns : RawRequest -> World -> HttpResponse * World :=
  route generate_campaigns JsonCampaigns.

Definition post_export_campaigns_csv : RawRequest -> World -> HttpResponse * World :=
  route export_campaigns_csv CsvAttachment.

Definition get_health : World -> HttpResponse * World :=
  respond JsonHealth health_check.

End Handlers.

(** ** A small platform to run the handlers on

    A Python fragment that is enough for the replies asked of the service
    (a dictionary display with string keys and string values), the
    [str(e)] of recent Starlette releases, and a generation service that
    plays back a script of replies, one per call. *)

Module Demo.

Import PyString.

Inductive PyValue :=
| PyStr (s : string)
| PyDict (items : list (string * string)).

Inductive Token := TLBrace | TRBrace | TColon | TComma | TStr (s : string) | TBad.

(** [inside] holds the characters of the string literal being read, last
    one first. *)
Fixpoint tokens (s : string) (inside : option string) : list Token :=
  match s with
  | EmptyString => match inside with None => [] | Some _ => [TBad] end
  | String c rest =>
      let n := nat_of_ascii c in
      match inside with
      | Some acc =>
          if (n =? 34)%nat then TStr (reverse acc) :: tokens rest None
          else tokens rest (Some (String c acc))
      | None =>
          if (n =? 34)%nat then tokens rest (Some EmptyString)
          else if (n =? 123)%nat then TLBrace :: tokens rest None
          else if (n =? 125)%nat then TRBrace :: tokens rest None
          else if (n =? 58)%nat then TColon :: tokens rest None
          else if (n =? 44)%nat then TComma :: tokens rest None
          else if is_space c then tokens rest None
          else TBad :: tokens rest None
      end
  end.

Fixpoint items (ts : list Token) : option (list (string * string)) :=
  match ts with
  | [TRBrace] => Some []
  | TStr k :: TColon :: TStr v :: rest =>
      match rest with
      | [TRBrace] => Some [(k, v)]
      | TComma :: rest' =>
          match items rest' with
          | Some kvs => Some ((k, v) :: kvs)
          | None => None
          end
      | _ => None
      end
  | _ => None
  end.

Definition SyntaxError : PyExc := OtherException "invalid syntax".

Definition eval (text : string) : Result PyValue :=
  match tokens text None with
  | [TStr s] => Return (PyStr s)
  | TLBrace :: ts =>
      match items ts with
      | Some kvs => Return (PyDict kvs)
      | None => Raise SyntaxError
      end
  | _ => Raise SyntaxError
  end.

Fixpoint lookup (key : string) (kvs : list (string * string)) : option string :=
  match kvs with
  | [] => None
  | (k, v) :: rest => if String.eqb k key then Some v else lookup key rest
  end.

Definition getitem (v : PyValue) (key : string) : Result PyValue :=
  match v with
  | PyDict kvs =>
      match lookup key kvs with
      | Some s => Return (PyStr s)
      | None => Raise (OtherException ("'" ++ key ++ "'")%string)
      end
  | PyStr _ => Raise (OtherException "string indices must be integers, not 'str'")
  end.

Definition as_str (v : PyValue) : option string :=
  match v with
  | PyStr s => Some s
  | PyDict _ => None
  end.

(** The service plays its script; when the script is over it is down. *)
Definition scripted (key : string) (args : GenerateArgs) (script : list Reply)
  : Reply * list Reply :=
  match script with
  | [] => (Raise (OtherException "service unavailable"), [])
  | reply :: rest => (reply, rest)
  end.

#[export] Instance platform : Platform := {|
  PyObj := PyValue;
  py_eval := eval;
  py_getitem := getitem;
  pydantic_str := as_str;
  validation_error_str fields :=
    ("validation errors for EmailVariant: " ++ join ", " fields)%string;
  http_exception_str code detail := (str_int code ++ ": " ++ detail)%string;
  email_syntax_ok := contains "@";
  Service := list Reply;
  cohere_generate := scripted
|}.

(** The text of a well-formed reply. *)
Definition reply_text (s b c : string) : string :=
  (" {" ++ dquote ++ "subject" ++ dquote ++ ": " ++ dquote ++ s ++ dquote ++ ", "
   ++ dquote ++ "body" ++ dquote ++ ": " ++ dquote ++ b ++ dquote ++ ", "
   ++ dquote ++ "call_to_action" ++ dquote ++ ": " ++ dquote ++ c ++ dquote ++ "}"
   ++ newline)%string.

Definition good (tag : string) : Reply :=
  Return [reply_text ("S" ++ tag) ("B" ++ tag) ("C" ++ tag)].

Definition down : Reply := Raise (OtherException "boom").

Definition noon : DateTime := mkDateTime 2024 3 9 12 5 7 0.

Definition env_with_key (key : string) : option string :=
  if String.eqb key "COHERE_API_KEY" then Some "k-123" else None.

Definition env_without_key (key : string) : option string := None.

Definition world (env : string -> option string) (script : list Reply)
           (dice : nat -> nat) : World :=
  mkWorld env (script : Service) dice 0 noon [].

Definition ada : Contact := mkContact "Ada" "ada@acme.test" "CTO" GroupA.

Definition acme : Account :=
  mkAccount "Acme" "Retail" ["churn"; "cost"] [ada] awareness medium neutral "English".


Definition client : Client := mkClient "k-123".


Definition request1 : CampaignRequest := mkCampaignRequest [acme] 1.

Definition heads (i : nat) : nat := 0%nat.

Definition all_good : World :=
  world env_with_key
        [good "1"; good "2"; good "3"; good "4"; good "5"; good "6"; good "7"; good "8"]
        heads.


Definition first_fails : World := world env_with_key [down] heads.


Definition unconfigured : World := world env_without_key [] heads.

Definition variant (tag : string) : EmailVariant :=
  mkEmailVariant ("S" ++ tag) ("B" ++ tag) ("C" ++ tag).

Definition response1 : CampaignResponse :=
  mkCampaignResponse [mkCampaign "Acme" [mkEmail [variant "1"; variant "2"]]].


Definition raw_ada : RawContact := mkRawContact "Ada" "ada@acme.test" "CTO" None.

Definition raw_acme : RawAccount :=
  mkRawAccount "Acme" "Retail" ["churn"; "cost"] [raw_ada] "awareness" None None "English".

Definition raw_eleven_emails : RawRequest := mkRawRequest [raw_acme] 11.

Definition raw_no_contact : RawRequest :=
  mkRawRequest
    [mkRawAccount "Acme" "Retail" ["churn"] [] "awareness" None None "English"] 3.

(** More inputs: a malformed address, an account nobody is at, a prompt. *)

Definition raw_bad_email : RawRequest :=
  mkRawRequest
    [mkRawAccount "Acme" "Retail" ["churn"]
                  [mkRawContact "Ada" "ada.acme.test" "CTO" None]
                  "awareness" None None "English"] 3.

Definition raw_request1 : RawRequest := mkRawRequest [raw_acme] 1.

Definition nobody : Account :=
  mkAccount "Acme" "Retail" ["churn"; "cost"] [] awareness medium neutral "English".

Definition acme_formal_prompt : string :=
  match build_prompt acme 1 2 "formal" with
  | Return p => p
  | Raise _ => EmptyString
  end.

Definition tricky_rows : list (list string) :=
  [ ["Acme, Inc."; "Email 1"; ("say " ++ dquote ++ "hi" ++ dquote)%string;
     ("two" ++ newline ++ "lines")%string; EmptyString; "x"];
    [EmptyString];
    [] ].

End Demo.

(** ** Vocabulary of the properties *)

Section Vocabulary.

Context {P : Platform}.

(** *** Valid requests: the field constraints, on the validated model *)





(** The boundary cases of a raw request: no account or eleven, an account
    with no pain point or six, an account with no contact, a number of
    e-mails below 1 or above 10. *)
Definition account_out_of_bounds (a : RawAccount) : bool :=
  ((List.length (raw_pain_points a) =? 0)
   || (List.length (raw_pain_points a) =? 6)
   || (List.length (raw_contacts a) =? 0))%nat.

Definition out_of_bounds (raw : RawRequest) : bool :=
  ((List.length (raw_accounts raw) =? 0)%nat
   || (List.length (raw_accounts raw) =? 11)%nat
   || existsb account_out_of_bounds (raw_accounts raw)
   || (raw_number_of_emails raw <? 1)
   || (10 <? raw_number_of_emails raw)).

(** *** Calls and their outcome *)

(** What the [try] block of [generate_email_content] makes of a reply. *)
Definition variant_of_reply (reply : Reply) : Result EmailVariant :=
  (generations <- reply ;; variant_of_generations generations)%result.




Definition on_acc {B} (acc : list B) (r : Result (list B)) : Result (list B) :=
  match r with
  | Return bs => Return (acc ++ bs)
  | Raise e => Raise e
  end.

(** The result and the calls of an appending loop, from those of its
    passes: it stops at the first pass that raises. *)
Inductive LoopTrace {A B} (Q : A -> Result B -> list Call -> Prop)
  : list A -> Result (list B) -> list Call -> Prop :=
| LoopDone : LoopTrace Q [] (Return []) []
| LoopRaise x rest e new :
    Q x (Raise e) new -> LoopTrace Q (x :: rest) (Raise e) new
| LoopStep x rest b new r new' :
    Q x (Return b) new ->
    LoopTrace Q rest r new' ->
    LoopTrace Q (x :: rest) (on_acc [b] r) (new ++ new').

(** One pass of the tone loop. *)
Inductive ToneTrace (account : Account) (email_number total_emails : Z) (tone : string)
  : Result EmailVariant -> list Call -> Prop :=
| ToneNoPrompt e :
    build_prompt account email_number total_emails tone = Raise e ->
    ToneTrace account email_number total_emails tone (Raise e) []
| ToneFailed p reply e :
    build_prompt account email_number total_emails tone = Return p ->
    variant_of_reply reply = Raise e ->
    ToneTrace account email_number total_emails tone
              (Raise (HTTPException 500
                        ("Error generating email variant: " ++ str_exc e)%string))
              [mkCall (generate_args p) reply]
| ToneDone p reply v :
    build_prompt account email_number total_emails tone = Return p ->
    variant_of_reply reply = Return v ->
    ToneTrace account email_number total_emails tone (Return v)
              [mkCall (generate_args p) reply].

Definition tones : list string := ["formal"; "casual"].

Definition EmailTrace (account : Account) (email_number total_emails : Z)
  : Result (list EmailVariant) -> list Call -> Prop :=
  LoopTrace (ToneTrace account email_number total_emails) tones.

(** One pass of the step loop: the variants are wrapped in an [Email]. *)
Definition StepTrace (account : Account) (total_emails : Z) (i : Z)
           (r : Result Email) (new : list Call) : Prop :=
  match r with
  | Return e => EmailTrace account (i + 1) total_emails (Return (variants e)) new
  | Raise x => EmailTrace account (i + 1) total_emails (Raise x) new
  end.

Definition campaign_detail (account : Account) (e : PyExc) : string :=
  ("Error generating campaign for " ++ account_name account ++ ": " ++ str_exc e)%string.

Definition CampaignTrace (total_emails : Z) (account : Account)
           (r : Result Campaign) (new : list Call) : Prop :=
  exists r0,
    LoopTrace (StepTrace account total_emails) (range total_emails) r0 new
    /\ r = match r0 with
           | Return es => Return (mkCampaign (account_name account) es)
           | Raise e => Raise (HTTPException 500 (campaign_detail account e))
           end.


(** *** The plan of a request: its (account, step, tone) triples in order *)





(** The calls [cs] were served one after the other: each was put to the
    service in the state the previous one left it in, and its recorded
    reply is what the service answered then. *)
Inductive Served (key : string) : Service -> list Call -> Service -> Prop :=
| ServedNone s : Served key s [] s
| ServedNext s c s' cs s'' :
    cohere_generate key (call_args c) s = (call_reply c, s') ->
    Served key s' cs s'' ->
    Served key s (c :: cs) s''.

(** Running [m] only adds calls to the record, and serves them in sequence. *)
Definition sequential (key : string) {A} (m : M A) : Prop :=
  forall w,
    exists new,
      calls (snd (m w)) = calls w ++ new
      /\ Served key (service w) new (service (snd (m w))).






(** *** Shape of a response *)


(** *** The rows of the CSV document behind a response *)


Definition csv_document (rows : list (list string)) : string :=
  fold_right String.append EmptyString (map Csv.line rows).



(** *** What generation does not look at *)

Definition first_job_title (a : Account) : option string :=
  match contacts a with
  | [] => None
  | c :: _ => Some (job_title c)
  end.

(** Two accounts that agree on every field a prompt or a row is built
    from: all but the contacts' names, e-mail addresses and groups, the
    contacts after the first, and the account's own tone. *)
Definition same_to_generation (a1 a2 : Account) : Prop :=
  account_name a1 = account_name a2
  /\ industry a1 = industry a2
  /\ pain_points a1 = pain_points a2
  /\ campaign_objective a1 = campaign_objective a2
  /\ interest a1 = interest a2
  /\ language a1 = language a2
  /\ first_job_title a1 = first_job_title a2.


(** Two worlds with the same environment, service, clock and record of
    calls; the random generator is free. *)
Definition same_outside (w1 w2 : World) : Prop :=
  environ w1 = environ w2
  /\ service w1 = service w2
  /\ now w1 = now w2
  /\ calls w1 = calls w2.



End Vocabulary.

(** ** More vocabulary: what the validator reads, and what is read back *)

Section Readings.

Context {P : Platform}.

(** *** The field constraints, on the raw request *)






(** *** The models a raw request stands for: fields as sent, defaults
    where a field was left out *)

Definition read {A} (parse : string -> option A) (default : A) (s : string) : A :=
  match parse s with
  | Some v => v
  | None => default
  end.





End Readings.

(** ** More vocabulary: groups, variants in order, text shapes *)

Section Shapes.

Context {P : Platform}.

(** The group the [k]-th draw of the generator stands for. *)
Definition drawn_group (entropy : nat -> nat) (k : nat) : Group :=
  nth (entropy k mod 2)%nat [GroupA; GroupB] GroupA.

(** The contacts with their groups redrawn, one draw each, from draw
    [start] on. *)
Fixpoint regroup (entropy : nat -> nat) (start : nat) (cs : list Contact) : list Contact :=
  match cs with
  | [] => []
  | c :: rest => set_group c (drawn_group entropy start) :: regroup entropy (S start) rest
  end.


(** Text made of the characters [str.strip()] removes. *)
Fixpoint all_space (s : string) : bool :=
  match s with
  | EmptyString => true
  | String c rest => PyString.is_space c && all_space rest
  end.

(** Text without a space in it. *)
Fixpoint spaceless (s : string) : bool :=
  match s with
  | EmptyString => true
  | String c rest => negb (Ascii.eqb c " ") && spaceless rest
  end.

(** A character slot of a fixed-width text: any decimal digit, or one
    given character. *)
Inductive Slot := Digit | Exactly (c : ascii).

Definition is_digit (c : ascii) : bool :=
  let n := nat_of_ascii c in ((48 <=? n) && (n <=? 57))%nat.

Fixpoint all_digits (s : string) : bool :=
  match s with
  | EmptyString => true
  | String c rest => is_digit c && all_digits rest
  end.

Definition fills (slot : Slot) (c : ascii) : bool :=
  match slot with
  | Digit => is_digit c
  | Exactly c' => Ascii.eqb c c'
  end.

Fixpoint fits (pattern : list Slot) (s : string) : bool :=
  match pattern, s with
  | [], EmptyString => true
  | slot :: pattern', String c s' => fills slot c && fits pattern' s'
  | _, _ => false
  end.

Definition digits (n : nat) : list Slot := repeat Digit n.

Definition literally (s : string) : list Slot := map Exactly (list_ascii_of_string s).


(** [YYYY-MM-DDTHH:MM:SS]. *)
Definition iso_pattern : list Slot :=
  digits 4 ++ literally "-" ++ digits 2 ++ literally "-" ++ digits 2 ++ literally "T"
  ++ digits 2 ++ literally ":" ++ digits 2 ++ literally ":" ++ digits 2.

(** A date and time of the calendar and the clock. *)
Definition datetime_ok (t : DateTime) : bool :=
  (1 <=? year t) && (year t <=? 9999)
  && (1 <=? month t) && (month t <=? 12)
  && (1 <=? day t) && (day t <=? 31)
  && (0 <=? hour t) && (hour t <=? 23)
  && (0 <=? minute t) && (minute t <=? 59)
  && (0 <=? second t) && (second t <=? 59)
  && (0 <=? microsecond t) && (microsecond t <=? 999999).


End Shapes.

(** ** More vocabulary: the prompt in three parts *)

Section PromptParts.

Import PyString.

(** The prompt up to the step number, from there up to the tone, and after
    the tone. *)
Definition prompt_before_step (account : Account) : list string :=
  [ newline;
    indent; "Create a personalized email for the following business account:"; newline;
    indent; "Company: "; account_name account; newline;
    indent; "Industry: "; industry account; newline;
    indent; "Pain Points: "; join ", " (pain_points account); newline;
    indent; "Campaign Stage: Email " ].

Definition prompt_before_tone (account : Account) (job : string) (total_emails : Z)
  : list string :=
  [ " of "; str_int total_emails; newline;
    indent; "Campaign Objective: "; Objective_str (campaign_objective account); newline;
    indent; "Recipient Job Title: "; job; newline;
    newline;
    indent; "Interest: "; Interest_str (interest account); newline;
    indent; "Tone: " ].

Definition prompt_after_tone (account : Account) : list string :=
  [ newline;
    indent; "Language: "; language account; newline;
    newline;
    indent; "Generate a JSON response with:"; newline;
    indent; "1. An engaging and catchy subject line"; newline;
    indent; "2. Personalized email body"; newline;
    indent; "3. Clear call-to-action"; newline;
    newline;
    indent; "Format the response as valid JSON with keys: ";
            dquote; "subject"; dquote; ", ";
            dquote; "body"; dquote; ", ";
            dquote; "call_to_action"; dquote; newline;
    indent ].

End PromptParts.

(** ** More vocabulary: reading a CSV document back

    A reader for the documents the writer above produces; it is the tool
    of the proof that the writer loses nothing, not part of the program. *)

Module CsvReader.

Inductive Mode := Plain | Quoted | QuoteSeen | AfterCR.

Record State := mkState {
  rows : list (list string);
  fields : list string;
  current : string;
  mode : Mode
}.

Definition push (s : string) (c : ascii) : string := (s ++ String c EmptyString)%string.

(** The row that ends here: an empty line is the empty row. *)
Definition row_of (fs : list string) (cur : string) (m : Mode) : list string :=
  match m, fs, cur with
  | Plain, [], EmptyString => []
  | _, _, _ => fs ++ [cur]
  end.

Definition step (st : State) (c : ascii) : State :=
  let n := nat_of_ascii c in
  match mode st with
  | Plain =>
      if (n =? 34)%nat then
        match current st with
        | EmptyString => mkState (rows st) (fields st) EmptyString Quoted
        | _ => mkState (rows st) (fields st) (push (current st) c) Plain
        end
      else if (n =? 44)%nat then
        mkState (rows st) (fields st ++ [current st]) EmptyString Plain
      else if (n =? 13)%nat then
        mkState (rows st ++ [row_of (fields st) (current st) Plain]) [] EmptyString AfterCR
      else mkState (rows st) (fields st) (push (current st) c) Plain
  | Quoted =>
      if (n =? 34)%nat then mkState (rows st) (fields st) (current st) QuoteSeen
      else mkState (rows st) (fields st) (push (current st) c) Quoted
  | QuoteSeen =>
      if (n =? 34)%nat then mkState (rows st) (fields st) (push (current st) c) Quoted
      else if (n =? 44)%nat then
        mkState (rows st) (fields st ++ [current st]) EmptyString Plain
      else if (n =? 13)%nat then
        mkState (rows st ++ [row_of (fields st) (current st) QuoteSeen]) []
                EmptyString AfterCR
      else mkState (rows st) (fields st) (push (current st) c) Plain
  | AfterCR =>
      if (n =? 10)%nat then mkState (rows st) [] EmptyString Plain
      else mkState (rows st) (fields st) (push (current st) c) Plain
  end.

Fixpoint run (s : string) (st : State) : State :=
  match s with
  | EmptyString => st
  | String c rest => run rest (step st c)
  end.

Definition start (done : list (list string)) : State := mkState done [] EmptyString Plain.

Definition read (document : string) : list (list string) := rows (run document (start [])).

(** The mode a written field leaves the reader in. *)
Definition mode_after (f : string) : Mode :=
  if Csv.any_special f then QuoteSeen else Plain.

End CsvReader.

(** ** How the loops run *)

Section Traces.

Context {P : Platform}.

Lemma bind_run {A B} (m : M A) (k : A -> M B) (w : World) :
  bind m k w = match m w with
               | (Raise e, w') => (Raise e, w')
               | (Return a, w') => k a w'
               end.
Proof. reflexivity. Qed.

Lemma try_except_run {A} (m : M A) (handler : PyExc -> M A) (w : World) :
  try_except m handler w = match m w with
                           | (Raise e, w') => handler e w'
                           | (Return a, w') => (Return a, w')
                           end.
Proof. reflexivity. Qed.





(** *** The tone loop *)



(** *** The group loop *)

Lemma same_outside_refl (w : World) : same_outside w w.
Proof. repeat split. Qed.



Lemma same_to_generation_refl (a : Account) : same_to_generation a a.
Proof. repeat split. Qed.






(** *** The step loop and the account loop *)





(** *** What a loop trace hands on from its passes *)








(** *** One e-mail step *)









(** *** One campaign *)









Lemma CampaignTrace_raise n a e new :
  CampaignTrace n a (Raise e) new ->
  exists cause, e = HTTPException 500 (campaign_detail a cause).
Proof.
  intros [r0 [_ Hr]]. destruct r0 as [cause | es]; [| discriminate].
  injection Hr as ->. now exists cause.
Qed.

(** *** The whole request *)






(** *** Where a run that raises stops *)





End Traces.

(** ** One call at a time *)

Section Sequence.

Context {P : Platform}.


Lemma sequential_silent (key : string) {A} (m : M A) :
  (forall w, calls (snd (m w)) = calls w /\ service (snd (m w)) = service w) ->
  sequential key m.
Proof.
  intros H w. destruct (H w) as [Hc Hs]. exists [].
  rewrite app_nil_r, Hs. split; [exact Hc | constructor].
Qed.




Lemma sequential_datetime_now (key : string) : sequential key datetime_now.
Proof. apply sequential_silent. intros w. split; reflexivity. Qed.









End Sequence.

(** ** Generation: shape, order, calls and failures *)

Section Generation.

Context {P : Platform}.


















(** *** The error of one campaign *)







End Generation.

(** ** What generation and export do not depend on *)

Section Independence.

Context {P : Platform}.



















End Independence.

(** ** The CSV document *)

Section CsvExport.

Context {P : Platform}.

Lemma append_assoc (s1 s2 s3 : string) : ((s1 ++ s2) ++ s3 = s1 ++ (s2 ++ s3))%string.
Proof. induction s1 as [| c s1 IH]; simpl; [reflexivity | now rewrite IH]. Qed.

Lemma append_empty_r (s : string) : (s ++ EmptyString)%string = s.
Proof. induction s as [| c s IH]; simpl; [reflexivity | now rewrite IH]. Qed.












End CsvExport.

(** ** Validation at the boundary, and the health probe *)

Section Boundary.

Context {P : Platform}.

Lemma bounded_items_nil {A} (where_ : list Loc) (lo : nat) (hi : option nat)
      (xs : list A) :
  Validate.bounded_items where_ lo hi xs = [] ->
  (lo <= List.length xs)%nat
  /\ match hi with Some h => (List.length xs <= h)%nat | None => True end.
Proof.
  unfold Validate.bounded_items, Validate.issue.
  destruct (List.length xs <? lo)%nat eqn:Elo; [discriminate |].
  apply Nat.ltb_ge in Elo. destruct hi as [h |]; [| now split].
  destruct (h <? List.length xs)%nat eqn:Ehi; [discriminate |].
  apply Nat.ltb_ge in Ehi. now split.
Qed.

Lemma count_nil (where_ : list Loc) (n : Z) :
  Validate.count where_ n = [] -> 0 < n <= 10.
Proof.
  unfold Validate.count, Validate.issue.
  destruct (n <=? 0) eqn:E0; [discriminate |].
  destruct (10 <? n) eqn:E10; [discriminate |].
  apply Z.leb_gt in E0. apply Z.ltb_ge in E10. lia.
Qed.

Lemma each_issue {A B} (validate : list Loc -> A -> list ValidationIssue * option B)
      (where_ : list Loc) (xs : list A) (x : A) :
  In x xs ->
  (forall where', fst (validate where' x) <> []) ->
  forall i, fst (Validate.each validate where_ i xs) <> [].
Proof.
  intros Hin Hbad. induction xs as [| y xs IH]; intros i; [contradiction |].
  simpl. destruct (validate (where_ ++ [LocIndex i]) y) as [issues v] eqn:Ey.
  destruct (Validate.each validate where_ (S i) xs) as [issues' vs] eqn:Erest.
  simpl. intros Hnil. apply app_eq_nil in Hnil. destruct Hnil as [-> ->].
  destruct Hin as [-> | Hin].
  - apply (Hbad (where_ ++ [LocIndex i])). now rewrite Ey.
  - apply (IH Hin (S i)). now rewrite Erest.
Qed.

Lemma account_issue (where_ : list Loc) (a : RawAccount) :
  account_out_of_bounds a = true ->
  fst (Validate.account email_syntax_ok where_ a) <> [].
Proof.
  intros Hbad. unfold Validate.account.
  destruct (Validate.each _ _ _ _) as [i_contacts cs].
  destruct (Validate.literal_field _ _ _ _) as [i_objective o].
  destruct (Validate.literal_default _ _ _ medium _) as [i_interest i].
  destruct (Validate.literal_default _ _ _ neutral _) as [i_tone t].
  simpl. intros Hnil.
  apply app_eq_nil in Hnil. destruct Hnil as [_ Hnil].
  apply app_eq_nil in Hnil. destruct Hnil as [_ Hnil].
  apply app_eq_nil in Hnil. destruct Hnil as [Hpain Hnil].
  apply app_eq_nil in Hnil. destruct Hnil as [Hcount _].
  apply bounded_items_nil in Hpain. apply bounded_items_nil in Hcount.
  unfold account_out_of_bounds in Hbad.
  apply orb_prop in Hbad. destruct Hbad as [Hbad | Hbad];
    [apply orb_prop in Hbad; destruct Hbad as [Hbad | Hbad] |];
    apply Nat.eqb_eq in Hbad; lia.
Qed.

Lemma out_of_bounds_issues (raw : RawRequest) :
  out_of_bounds raw = true ->
  exists issues,
    issues <> [] /\ Validate.request email_syntax_ok raw = inl issues.
Proof.
  intros Hbad. unfold Validate.request.
  destruct (Validate.each (Validate.account email_syntax_ok)
              [LocField "accounts"] 0 (raw_accounts raw))
    as [i_accounts accs] eqn:Eaccounts.
  assert (Hissues :
            Validate.bounded_items [LocField "accounts"] 1 (Some 10%nat) (raw_accounts raw)
            ++ i_accounts
            ++ Validate.count [LocField "number_of_emails"] (raw_number_of_emails raw)
            <> []).
  { intros Hnil.
    apply app_eq_nil in Hnil. destruct Hnil as [Hcount Hnil].
    apply app_eq_nil in Hnil. destruct Hnil as [Haccounts Hnumber].
    apply bounded_items_nil in Hcount. apply count_nil in Hnumber.
    unfold out_of_bounds in Hbad.
    apply orb_prop in Hbad. destruct Hbad as [Hbad | Hbad];
      [| apply Z.ltb_lt in Hbad; lia].
    apply orb_prop in Hbad. destruct Hbad as [Hbad | Hbad];
      [| apply Z.ltb_lt in Hbad; lia].
    apply orb_prop in Hbad. destruct Hbad as [Hbad | Hbad].
    - apply orb_prop in Hbad. destruct Hbad as [Hbad | Hbad];
        apply Nat.eqb_eq in Hbad; lia.
    - apply existsb_exists in Hbad. destruct Hbad as [a [Hin Ha]].
      apply (each_issue (Validate.account email_syntax_ok) [LocField "accounts"]
               (raw_accounts raw) a Hin
               (fun where' => account_issue where' a Ha) 0%nat).
      now rewrite Eaccounts. }
  eexists. split; [exact Hissues |].
  destruct (_ ++ _ ++ _) as [| issue issues]; [congruence |].
  reflexivity.
Qed.

Lemma get_cohere_client_pure (w : World) : snd (get_cohere_client w) = w.
Proof.
  unfold get_cohere_client, bind, getenv, raise, ret. simpl.
  destruct (environ w "COHERE_API_KEY") as [k |]; [| reflexivity].
  simpl. now destruct (String.length k =? 0)%nat.
Qed.

Lemma get_cohere_client_configured (w : World) :
  falsy (environ w "COHERE_API_KEY") = false ->
  exists k, get_cohere_client w = (Return (mkClient k), w).
Proof.
  unfold get_cohere_client, bind, getenv, raise, ret. simpl.
  destruct (environ w "COHERE_API_KEY") as [k |]; simpl; [| discriminate].
  intros ->. now exists k.
Qed.

Lemma route_rejects {A} (endpoint : CampaignRequest -> Client -> M A)
      (ok : A -> HttpBody) (raw : RawRequest) (issues : list ValidationIssue)
      (w : World) :
  Validate.request email_syntax_ok raw = inl issues ->
  snd (route endpoint ok raw w) = w
  /\ (falsy (environ w "COHERE_API_KEY") = false ->
      fst (route endpoint ok raw w)
      = mkHttpResponse 422 (JsonValidationErrors issues)).
Proof.
  intros Hinvalid. unfold route. rewrite Hinvalid. split.
  - pose proof (get_cohere_client_pure w) as Hpure.
    destruct (get_cohere_client w) as [[e | client] w']; simpl in *; congruence.
  - intros Hkey. destruct (get_cohere_client_configured w Hkey) as [k ->].
    reflexivity.
Qed.

(** C7.  A raw request with no account, with eleven accounts, with an
    account that has no pain point, six pain points or no contact, or
    with a number of e-mails outside 1..10 does not pass validation: the
    validator reports at least one issue, and both routes answer without
    calling the endpoint function, so that no call goes out and the
    world is left as it was; with the API key configured the answer is
    the 422 validation error. *)
Theorem out_of_bounds_rejected (raw : RawRequest) :
  out_of_bounds raw = true ->
  exists issues,
    issues <> []
    /\ Validate.request email_syntax_ok raw = inl issues
    /\ forall w,
         snd (post_generate_campaigns raw w) = w
         /\ snd (post_export_campaigns_csv raw w) = w
         /\ (falsy (environ w "COHERE_API_KEY") = false ->
             fst (post_generate_campaigns raw w)
             = mkHttpResponse 422 (JsonValidationErrors issues)
             /\ fst (post_export_campaigns_csv raw w)
                = mkHttpResponse 422 (JsonValidationErrors issues)).
Proof.
  intros Hbad. destruct (out_of_bounds_issues raw Hbad) as [issues [Hne Hinvalid]].
  exists issues. split; [assumption |]. split; [assumption |].
  intros w.
  destruct (route_rejects generate_campaigns JsonCampaigns raw w Hinvalid) as [Hw1 Hr1].
  destruct (route_rejects export_campaigns_csv CsvAttachment raw w Hinvalid) as [Hw2 Hr2].
  split; [exact Hw1 |]. split; [exact Hw2 |].
  intros Hkey. split; [now apply Hr1 | now apply Hr2].
Qed.

(** C6, as the code has it.  Whatever the process environment holds, the
    health route answers 200 with the status [healthy], the current time
    in ISO format, the version [1.0.0] and the flag
    [cohere_api_configured] set to true; the flag is a constant and the
    environment is not read. *)
Theorem health_is_static (w : World) :
  get_health w
  = (mkHttpResponse 200
       (JsonHealth (mkHealthPayload "healthy" (isoformat (now w)) "1.0.0" true)),
     w).
Proof. reflexivity. Qed.

(** The key is looked at when the application starts: a process that got
    past [lifespan] had it. *)
Lemma startup_requires_key (w : World) :
  fst (lifespan_startup w) = Return tt ->
  falsy (environ w "COHERE_API_KEY") = false.
Proof.
  unfold lifespan_startup, bind, getenv. simpl.
  destruct (falsy (environ w "COHERE_API_KEY")); [discriminate | reflexivity].
Qed.

(** *** What the validator lets through is a valid request *)








End Boundary.

(** ** The validator, exactly *)

Section Validator.

Context {P : Platform}.










End Validator.

(** ** The routes, case by case *)

Section Routes.

Context {P : Platform}.



Lemma get_cohere_client_missing (w : World) :
  falsy (environ w "COHERE_API_KEY") = true ->
  get_cohere_client w = (Raise (HTTPException 500 "Cohere API key not found"), w).
Proof.
  unfold get_cohere_client, bind, getenv, raise, ret. simpl.
  destruct (environ w "COHERE_API_KEY") as [k |]; simpl; [| reflexivity].
  now intros ->.
Qed.

(** X3.  With the API key unset or set to the empty string, both POST
    routes answer 500 with the detail [Cohere API key not found], whatever
    the body: the body is not validated, the endpoint function is not
    called, no call goes out. *)
Theorem missing_key_answers_500 (raw : RawRequest) (w : World) :
  falsy (environ w "COHERE_API_KEY") = true ->
  post_generate_campaigns raw w
  = (mkHttpResponse 500 (JsonDetail "Cohere API key not found"), w)
  /\ post_export_campaigns_csv raw w
     = (mkHttpResponse 500 (JsonDetail "Cohere API key not found"), w).
Proof.
  intros Hkey. unfold post_generate_campaigns, post_export_campaigns_csv, route.
  rewrite (get_cohere_client_missing w Hkey). split; reflexivity.
Qed.

(** X4.  The check made when the application starts and the check made
    for each request agree: [lifespan] lets the application start exactly
    when [get_cohere_client] resolves, and the client then holds the key
    found in the environment, which is not empty. *)
Theorem startup_and_dependency_agree (w : World) :
  (fst (lifespan_startup w) = Return tt <->
   exists k,
     environ w "COHERE_API_KEY" = Some k
     /\ k <> EmptyString
     /\ get_cohere_client w = (Return (mkClient k), w))
  /\ (fst (lifespan_startup w)
      = Raise (OtherException "COHERE_API_KEY environment variable is not set") <->
      get_cohere_client w = (Raise (HTTPException 500 "Cohere API key not found"), w)).
Proof.
  unfold lifespan_startup, get_cohere_client, bind, getenv, raise, ret. simpl.
  destruct (environ w "COHERE_API_KEY") as [k |]; simpl.
  - destruct k as [| c k]; simpl.
    + split; split; try discriminate; try reflexivity.
      intros [k [Hk [Hne _]]]. injection Hk as <-. congruence.
    + split; split; try discriminate; try reflexivity.
      intros _. exists (String c k). repeat split. discriminate.
  - split; split; try discriminate; try reflexivity.
    intros [k [Hk _]]. discriminate.
Qed.







End Routes.

(** ** Groups, alignment of replies and variants, degenerate inputs *)

Section Campaigns.

Context {P : Platform}.

Lemma group_loop_exact (cs acc : list Contact) (w : World) :
  for_append cs
    (fun contact =>
       bind (random_choice [GroupA; GroupB]) (fun g => ret (set_group contact g)))
    acc w
  = (Return (acc ++ regroup (entropy w) (draws w) cs),
     mkWorld (environ w) (service w) (entropy w) (draws w + List.length cs)
             (now w) (calls w)).
Proof.
  revert acc w. induction cs as [| c rest IH]; intros acc w; cbn [for_append].
  - unfold ret. cbn [regroup List.length]. rewrite app_nil_r, Nat.add_0_r.
    now destruct w.
  - rewrite bind_run, bind_run. unfold random_choice, ret. cbv beta iota.
    rewrite IH. cbn [environ service entropy draws now calls regroup List.length].
    rewrite <- app_assoc. cbn [app].
    replace (S (draws w) + List.length rest)%nat
      with (draws w + S (List.length rest))%nat by lia.
    reflexivity.
Qed.

Lemma regroup_length entropy start cs :
  List.length (regroup entropy start cs) = List.length cs.
Proof.
  revert start. induction cs as [| c cs IH]; intros start; simpl; [reflexivity |].
  now rewrite IH.
Qed.

Lemma regroup_fields entropy start cs :
  map name (regroup entropy start cs) = map name cs
  /\ map email (regroup entropy start cs) = map email cs
  /\ map job_title (regroup entropy start cs) = map job_title cs.
Proof.
  revert start. induction cs as [| c cs IH]; intros start; simpl; [repeat split |].
  destruct (IH (S start)) as (-> & -> & ->). repeat split.
Qed.

Lemma regroup_nth entropy start cs k c :
  nth_error (regroup entropy start cs) k = Some c ->
  group c = drawn_group entropy (start + k).
Proof.
  revert start k. induction cs as [| c0 cs IH]; intros start k H.
  - destruct k; discriminate.
  - destruct k as [| k]; simpl in H.
    + injection H as <-. simpl. now rewrite Nat.add_0_r.
    + apply IH in H. rewrite H. f_equal. lia.
Qed.

(** X8.  The group loop of [generate_campaign] never fails and makes one
    draw per contact, in order: contact number [k] gets the group of draw
    number [k] from where the generator stood, A or B.  Names, e-mail
    addresses, job titles and their order are as before, so is every other
    field of the account, and nothing but the generator's position
    changes in the world. *)
Theorem groups_drawn_per_contact (account : Account) (w : World) :
  exists account',
    assign_groups account w
    = (Return account',
       mkWorld (environ w) (service w) (entropy w)
               (draws w + List.length (contacts account)) (now w) (calls w))
    /\ account_name account' = account_name account
    /\ industry account' = industry account
    /\ pain_points account' = pain_points account
    /\ campaign_objective account' = campaign_objective account
    /\ interest account' = interest account
    /\ tone account' = tone account
    /\ language account' = language account
    /\ map name (contacts account') = map name (contacts account)
    /\ map email (contacts account') = map email (contacts account)
    /\ map job_title (contacts account') = map job_title (contacts account)
    /\ forall k c,
         nth_error (contacts account') k = Some c ->
         group c = nth (entropy w (draws w + k) mod 2)%nat [GroupA; GroupB] GroupA.
Proof.
  eexists. split.
  - unfold assign_groups. rewrite bind_run, group_loop_exact. unfold ret. reflexivity.
  - cbn [account_name industry pain_points campaign_objective interest tone language
         contacts app].
    destruct (regroup_fields (entropy w) (draws w) (contacts account)) as (Hn & He & Hj).
    repeat split; try assumption.
    intros k c Hk. now apply regroup_nth in Hk.
Qed.

(** *** Replies and variants, position by position *)





(** *** Degenerate inputs, as a direct caller may pass them *)

Lemma range_positive (n : Z) : 0 < n -> exists rest, range n = 0 :: rest.
Proof.
  intros Hn. unfold range. destruct (Z.to_nat n) as [| k] eqn:E; [lia |].
  simpl. eexists. reflexivity.
Qed.

Lemma range_nonpositive (n : Z) : n <= 0 -> range n = [].
Proof.
  intros Hn. unfold range. destruct (Z.to_nat n) as [| k] eqn:E; [reflexivity | lia].
Qed.

(** X10.  An account without contacts, with at least one e-mail asked for:
    [generate_campaign] raises [HTTPException] 500 whose detail is
    [Error generating campaign for], the account name and [list index out
    of range]; the failure is in building the first prompt, so no call is
    made and the world is untouched. *)
Theorem no_contacts_no_calls (client : Client) (account : Account) (n : Z) (w : World) :
  contacts account = [] ->
  0 < n ->
  generate_campaign client account n w
  = (Raise (HTTPException 500
              ("Error generating campaign for " ++ account_name account
               ++ ": list index out of range")%string),
     w).
Proof.
  intros Hcontacts Hn. unfold generate_campaign.
  rewrite try_except_run, bind_run.
  unfold assign_groups. rewrite bind_run, group_loop_exact, Hcontacts.
  cbn [List.length regroup app]. unfold ret at 1. cbv beta iota.
  rewrite Nat.add_0_r.
  destruct (range_positive Hn) as [rest ->].
  rewrite bind_run. cbn [for_append]. rewrite bind_run, bind_run.
  unfold generate_email_content. cbn [for_append]. rewrite bind_run, bind_run.
  unfold build_prompt. cbn [contacts first rbind lift].
  unfold raise. cbn [str_exc IndexError]. simpl. now destruct w.
Qed.

(** X11.  A number of e-mails of zero or less: [generate_campaign]
    returns a campaign with the account name and no e-mail, without
    calling the service. *)
Theorem no_emails_no_calls (client : Client) (account : Account) (n : Z) (w : World) :
  n <= 0 ->
  fst (generate_campaign client account n w) = Return (mkCampaign (account_name account) [])
  /\ calls (snd (generate_campaign client account n w)) = calls w
  /\ service (snd (generate_campaign client account n w)) = service w.
Proof.
  intros Hn. unfold generate_campaign.
  rewrite try_except_run, bind_run.
  unfold assign_groups. rewrite bind_run, group_loop_exact.
  unfold ret at 1. cbv beta iota.
  rewrite (range_nonpositive Hn), bind_run. cbn [for_append]. unfold ret.
  repeat split.
Qed.

End Campaigns.

(** ** Text: stripping, decimals, prompts *)

Section Text.

Context {P : Platform}.

Import PyString.


Lemma lstrip_all_space (s : string) : all_space s = true -> lstrip s = EmptyString.
Proof.
  induction s as [| c s IH]; simpl; [reflexivity |].
  intros H. apply andb_prop in H. destruct H as [Hc Hs].
  rewrite Hc. now apply IH.
Qed.


Lemma rev_onto_app (s u acc : string) :
  rev_onto (s ++ u) acc = rev_onto u (rev_onto s acc).
Proof.
  revert acc. induction s as [| c s IH]; intros acc; simpl; [reflexivity | apply IH].
Qed.

Lemma rev_onto_acc (s acc : string) :
  rev_onto s acc = (rev_onto s EmptyString ++ acc)%string.
Proof.
  revert acc. induction s as [| c s IH]; intros acc; simpl; [reflexivity |].
  rewrite IH, (IH (String c EmptyString)), append_assoc. reflexivity.
Qed.

Lemma reverse_app (s u : string) : reverse (s ++ u) = (reverse u ++ reverse s)%string.
Proof. unfold reverse. rewrite rev_onto_app. apply rev_onto_acc. Qed.

Lemma all_space_app (s u : string) : all_space (s ++ u) = all_space s && all_space u.
Proof.
  induction s as [| c s IH]; simpl; [reflexivity |].
  now rewrite IH, andb_assoc.
Qed.

Lemma all_space_reverse (s : string) : all_space (reverse s) = all_space s.
Proof.
  induction s as [| c s IH]; [reflexivity |].
  change (String c s) with (String c EmptyString ++ s)%string.
  rewrite reverse_app, !all_space_app, IH. apply andb_comm.
Qed.


Lemma rstrip_all_space (s : string) : all_space s = true -> rstrip s = EmptyString.
Proof.
  intros H. unfold rstrip. rewrite lstrip_all_space; [reflexivity |].
  now rewrite all_space_reverse.
Qed.



(** *** Decimals *)

Lemma spaceless_uint (d : Decimal.uint) : spaceless (NilEmpty.string_of_uint d) = true.
Proof. induction d; simpl; auto. Qed.

Lemma spaceless_str_int (z : Z) : spaceless (str_int z) = true.
Proof.
  unfold str_int, NilZero.string_of_int, NilZero.string_of_uint.
  destruct (Z.to_int z) as [d | d]; destruct d; simpl; try reflexivity;
    apply spaceless_uint.
Qed.

Lemma str_int_inj (z z' : Z) : str_int z = str_int z' -> z = z'.
Proof.
  unfold str_int. intros H. apply DecimalZ.to_int_inj.
  assert (Hsome : forall x, NilZero.int_of_string (NilZero.string_of_int (Z.to_int x))
                            = Some (Z.to_int x)).
  { intros x. apply NilZero.isi; destruct x as [| p | p]; simpl; try discriminate;
      intros E; injection E as E; now apply DecimalPos.Unsigned.to_uint_nonnil in E. }
  pose proof (Hsome z) as Hz. rewrite H, Hsome in Hz. now injection Hz.
Qed.

Lemma append_inv_head (s u v : string) : (s ++ u = s ++ v)%string -> u = v.
Proof.
  induction s as [| c s IH]; simpl; intros H; [assumption |].
  injection H as H. now apply IH.
Qed.

Lemma length_append (s u : string) :
  String.length (s ++ u) = (String.length s + String.length u)%nat.
Proof. induction s as [| c s IH]; simpl; [reflexivity | now rewrite IH]. Qed.

Lemma append_inv_tail (s s' u : string) : (s ++ u = s' ++ u)%string -> s = s'.
Proof.
  revert s'. induction s as [| c s IH]; intros s' H.
  - destruct s' as [| c' s']; [reflexivity |].
    apply (f_equal String.length) in H. rewrite !length_append in H. simpl in H. lia.
  - destruct s' as [| c' s'].
    + apply (f_equal String.length) in H. rewrite !length_append in H. simpl in H. lia.
    + simpl in H. injection H as -> H. f_equal. now apply IH.
Qed.

(** Two spaceless texts, each followed by a space: where the space is
    tells them apart. *)
Lemma spaceless_then_space (s s' u u' : string) :
  spaceless s = true -> spaceless s' = true ->
  (s ++ String " " u = s' ++ String " " u')%string ->
  s = s' /\ u = u'.
Proof.
  revert s'. induction s as [| c s IH]; intros s' Hs Hs' H.
  - destruct s' as [| c' s']; simpl in *.
    + injection H as ->. split; reflexivity.
    + injection H as <- _. simpl in Hs'. discriminate.
  - destruct s' as [| c' s']; simpl in *.
    + injection H as -> _. simpl in Hs. discriminate.
    + injection H as -> H.
      apply andb_prop in Hs, Hs'. destruct Hs as [_ Hs]. destruct Hs' as [_ Hs'].
      destruct (IH s' Hs Hs' H) as [-> ->]. split; reflexivity.
Qed.

End Text.

(** ** Prompts of one account *)

Section Prompts.

Import PyString.

Lemma concat_fold (l : list string) :
  String.concat EmptyString l = fold_right String.append EmptyString l.
Proof.
  induction l as [| x l IH]; [reflexivity |].
  cbn [fold_right]. rewrite <- IH. destruct l as [| y l]; simpl.
  - now rewrite append_empty_r.
  - reflexivity.
Qed.

Lemma concat_app (l1 l2 : list string) :
  String.concat EmptyString (l1 ++ l2)
  = (String.concat EmptyString l1 ++ String.concat EmptyString l2)%string.
Proof.
  rewrite !concat_fold. induction l1 as [| x l1 IH]; simpl; [reflexivity |].
  now rewrite IH, append_assoc.
Qed.

Lemma build_prompt_parts (account : Account) (i n : Z) (tone : string) :
  build_prompt account i n tone
  = rbind (first (contacts account))
      (fun contact0 =>
         Return
           (String.concat EmptyString (prompt_before_step account)
            ++ str_int i
            ++ String.concat EmptyString
                 (prompt_before_tone account (job_title contact0) n)
            ++ tone
            ++ String.concat EmptyString (prompt_after_tone account))%string).
Proof.
  unfold build_prompt. destruct (first (contacts account)) as [e | c0]; [reflexivity |].
  cbn [rbind]. f_equal.
  change (String.concat EmptyString
            (prompt_before_step account
             ++ [str_int i]
             ++ prompt_before_tone account (job_title c0) n
             ++ [tone]
             ++ prompt_after_tone account)
          = (String.concat EmptyString (prompt_before_step account)
             ++ str_int i
             ++ String.concat EmptyString (prompt_before_tone account (job_title c0) n)
             ++ tone
             ++ String.concat EmptyString (prompt_after_tone account))%string).
  now rewrite !concat_app.
Qed.

Lemma Return_inj {A} (a b : A) : Return a = Return b -> a = b.
Proof. congruence. Qed.

Lemma before_tone_starts_with_space (account : Account) (job : string) (n : Z) :
  exists rest,
    String.concat EmptyString (prompt_before_tone account job n) = String " " rest.
Proof. eexists. unfold prompt_before_tone. cbn [String.concat]. reflexivity. Qed.

(** X13.  The prompts built for one account in one request tell the
    calls apart: if two of them are the same text, they are for the same
    step and the same tone.  In particular the formal and the casual
    prompt of a step differ, and so do the prompts of two steps. *)
Theorem prompts_tell_calls_apart (account : Account) (i j n : Z) (tone tone' p : string) :
  build_prompt account i n tone = Return p ->
  build_prompt account j n tone' = Return p ->
  i = j /\ tone = tone'.
Proof.
  rewrite !build_prompt_parts.
  destruct (first (contacts account)) as [e | c0]; [discriminate |].
  cbn [rbind]. intros H1 H2. rewrite <- H2 in H1. clear H2.
  apply Return_inj in H1. rename H1 into H. apply append_inv_head in H.
  destruct (before_tone_starts_with_space account (job_title c0) n) as [rest Hrest].
  rewrite Hrest in H.
  change ((String " " rest ++ tone ++ String.concat EmptyString (prompt_after_tone account))
            %string)
    with (String " " (rest ++ tone
                      ++ String.concat EmptyString (prompt_after_tone account))%string) in H.
  change ((String " " rest ++ tone' ++ String.concat EmptyString (prompt_after_tone account))
            %string)
    with (String " " (rest ++ tone'
                      ++ String.concat EmptyString (prompt_after_tone account))%string) in H.
  apply spaceless_then_space in H; try apply spaceless_str_int.
  destruct H as [Hstep Htone].
  apply str_int_inj in Hstep. apply append_inv_head in Htone.
  apply append_inv_tail in Htone. split; assumption.
Qed.

End Prompts.

(** ** Time stamps *)

Section Stamps.

Context {P : Platform}.

Import PyString.










Lemma fits_app (p1 p2 : list Slot) (s1 s2 : string) :
  fits p1 s1 = true -> fits p2 s2 = true -> fits (p1 ++ p2) (s1 ++ s2) = true.
Proof.
  revert s1. induction p1 as [| slot p1 IH]; intros s1 H1 H2.
  - destruct s1; [exact H2 | discriminate].
  - destruct s1 as [| c s1]; [discriminate |]. simpl in *.
    apply andb_prop in H1. destruct H1 as [Hc H1].
    rewrite Hc. now apply IH.
Qed.

Lemma of_uint_acc_lower (d : Decimal.uint) (acc : positive) :
  Z.pos acc * 10 ^ Z.of_nat (Decimal.nb_digits d) <= Z.pos (Pos.of_uint_acc d acc).
Proof.
  revert acc. induction d as [| d IH | d IH | d IH | d IH | d IH | d IH | d IH | d IH | d IH | d IH];
    intros acc; cbn [Pos.of_uint_acc Decimal.nb_digits];
    [ rewrite Z.pow_0_r; lia | .. ];
    (rewrite Nat2Z.inj_succ, Z.pow_succ_r by lia;
     eapply Z.le_trans; [| apply IH];
     assert (0 < 10 ^ Z.of_nat (Decimal.nb_digits d)) by (apply Z.pow_pos_nonneg; lia);
     nia).
Qed.

Lemma to_uint_head (p : positive) :
  match Pos.to_uint p with
  | Decimal.Nil | Decimal.D0 _ => False
  | _ => True
  end.
Proof.
  pose proof (DecimalPos.Unsigned.to_uint_nonnil p) as Hnil.
  pose proof (DecimalPos.Unsigned.to_uint_nonzero p) as Hzero.
  pose proof (DecimalPos.Unsigned.to_of (Pos.to_uint p)) as Hnorm.
  rewrite DecimalPos.Unsigned.of_to in Hnorm. simpl in Hnorm.
  destruct (Pos.to_uint p) as [| d | | | | | | | | | ] eqn:E; try exact I; [congruence |].
  unfold Decimal.unorm in Hnorm. cbn [Decimal.nzhead] in Hnorm.
  pose proof (DecimalFacts.nb_digits_nzhead d) as Hlen.
  destruct (Decimal.nzhead d) eqn:En.
  - apply Hzero. exact Hnorm.
  - rewrite <- Hnorm in Hlen. simpl in Hlen. lia.
  - discriminate. - discriminate. - discriminate. - discriminate. - discriminate.
  - discriminate. - discriminate. - discriminate. - discriminate.
Qed.

Lemma to_uint_lower (p : positive) :
  10 ^ (Z.of_nat (Decimal.nb_digits (Pos.to_uint p)) - 1) <= Z.pos p.
Proof.
  pose proof (to_uint_head p) as Hhead.
  pose proof (DecimalPos.Unsigned.of_to p) as Hof.
  destruct (Pos.to_uint p) as [| d | d | d | d | d | d | d | d | d | d];
    try contradiction;
    cbn [Pos.of_uint Decimal.nb_digits] in *; injection Hof as Hof;
    rewrite <- Hof, Nat2Z.inj_succ;
    replace (Z.succ (Z.of_nat (Decimal.nb_digits d)) - 1)
      with (Z.of_nat (Decimal.nb_digits d)) by lia;
    (eapply Z.le_trans; [| apply of_uint_acc_lower]);
    assert (0 < 10 ^ Z.of_nat (Decimal.nb_digits d)) by (apply Z.pow_pos_nonneg; lia);
    nia.
Qed.

Lemma string_of_uint_digits (d : Decimal.uint) :
  all_digits (NilEmpty.string_of_uint d) = true
  /\ String.length (NilEmpty.string_of_uint d) = Decimal.nb_digits d.
Proof. induction d; simpl; try destruct IHd as [-> ->]; split; reflexivity. Qed.

Lemma str_int_digits (k : nat) (z : Z) :
  (0 < k)%nat -> 0 <= z < 10 ^ Z.of_nat k ->
  all_digits (str_int z) = true /\ (String.length (str_int z) <= k)%nat.
Proof.
  intros Hk Hz. unfold str_int. destruct z as [| p | p]; [| | lia].
  - simpl. split; [reflexivity | lia].
  - cbn [Z.to_int NilZero.string_of_int]. unfold NilZero.string_of_uint.
    pose proof (to_uint_head p) as Hhead. pose proof (to_uint_lower p) as Hlow.
    destruct (string_of_uint_digits (Pos.to_uint p)) as [Hall Hlen].
    assert (Hnb : (Decimal.nb_digits (Pos.to_uint p) <= k)%nat).
    { destruct (Nat.le_gt_cases (Decimal.nb_digits (Pos.to_uint p)) k) as [H | H];
        [assumption |].
      assert (10 ^ Z.of_nat k <= 10 ^ (Z.of_nat (Decimal.nb_digits (Pos.to_uint p)) - 1))
        by (apply Z.pow_le_mono_r; lia).
      lia. }
    destruct (Pos.to_uint p); try contradiction; (split; [exact Hall | lia]).
Qed.

Lemma zeros_fit (n : nat) : fits (digits n) (zeros n) = true.
Proof. induction n as [| n IH]; simpl; [reflexivity | exact IH]. Qed.

Lemma digits_fit (s : string) :
  all_digits s = true -> fits (digits (String.length s)) s = true.
Proof.
  induction s as [| c s IH]; simpl; [reflexivity |].
  intros H. apply andb_prop in H. destruct H as [Hc Hs].
  rewrite Hc. now apply IH.
Qed.

(** A number below [10 ^ k] zero-filled to width [k] is [k] digits. *)
Lemma zfill_fits (k : nat) (z : Z) :
  (0 < k)%nat -> 0 <= z < 10 ^ Z.of_nat k -> fits (digits k) (zfill k z) = true.
Proof.
  intros Hk Hz. destruct (str_int_digits Hk Hz) as [Hall Hlen].
  unfold zfill.
  replace (digits k)
    with (digits (k - String.length (str_int z)) ++ digits (String.length (str_int z))).
  - apply fits_app; [apply zeros_fit | now apply digits_fit].
  - unfold digits. rewrite <- repeat_app. f_equal. lia.
Qed.

Lemma two_digits (z : Z) : 0 <= z <= 99 -> fits (digits 2) (zfill 2 z) = true.
Proof.
  intros Hz. apply zfill_fits; [lia |]. change (10 ^ Z.of_nat 2) with 100. lia.
Qed.

Lemma four_digits (z : Z) : 0 <= z <= 9999 -> fits (digits 4) (zfill 4 z) = true.
Proof.
  intros Hz. apply zfill_fits; [lia |]. change (10 ^ Z.of_nat 4) with 10000. lia.
Qed.

Lemma six_digits (z : Z) : 0 <= z <= 999999 -> fits (digits 6) (zfill 6 z) = true.
Proof.
  intros Hz. apply zfill_fits; [lia |]. change (10 ^ Z.of_nat 6) with 1000000. lia.
Qed.

Lemma datetime_ok_bounds (t : DateTime) :
  datetime_ok t = true ->
  1 <= year t <= 9999 /\ 1 <= month t <= 12 /\ 1 <= day t <= 31
  /\ 0 <= hour t <= 23 /\ 0 <= minute t <= 59 /\ 0 <= second t <= 59
  /\ 0 <= microsecond t <= 999999.
Proof.
  unfold datetime_ok. intros H.
  repeat (apply andb_prop in H; let H' := fresh "B" in destruct H as [H H']).
  repeat match goal with
         | B : (_ <=? _) = true |- _ => apply Z.leb_le in B
         end.
  lia.
Qed.


Lemma isoformat_seconds_fits (t : DateTime) (rest : string) (more : list Slot) :
  datetime_ok t = true ->
  fits more rest = true ->
  fits (iso_pattern ++ more)
       (zfill 4 (year t) ++ "-" ++ zfill 2 (month t) ++ "-" ++ zfill 2 (day t) ++ "T"
        ++ zfill 2 (hour t) ++ ":" ++ zfill 2 (minute t) ++ ":" ++ zfill 2 (second t)
        ++ rest) = true.
Proof.
  intros Hok Hrest. apply datetime_ok_bounds in Hok.
  destruct Hok as (Hy & Hm & Hd & Hh & Hmi & Hs & _).
  unfold iso_pattern. rewrite <- !app_assoc.
  apply fits_app; [apply four_digits; lia |].
  apply (fits_app (literally "-") _ "-"); [reflexivity |].
  apply fits_app; [apply two_digits; lia |].
  apply (fits_app (literally "-") _ "-"); [reflexivity |].
  apply fits_app; [apply two_digits; lia |].
  apply (fits_app (literally "T") _ "T"); [reflexivity |].
  apply fits_app; [apply two_digits; lia |].
  apply (fits_app (literally ":") _ ":"); [reflexivity |].
  apply fits_app; [apply two_digits; lia |].
  apply (fits_app (literally ":") _ ":"); [reflexivity |].
  apply fits_app; [apply two_digits; lia | exact Hrest].
Qed.

(** X14.  At any date and time of the calendar and the clock, the health
    route answers 200 with a time stamp of the form [YYYY-MM-DDTHH:MM:SS],
    digits in every place, followed by a dot and six digits when the
    microseconds are not zero. *)
Theorem health_timestamp_well_formed (w : World) :
  datetime_ok (now w) = true ->
  exists stamp,
    fst (get_health w)
    = mkHttpResponse 200 (JsonHealth (mkHealthPayload "healthy" stamp "1.0.0" true))
    /\ fits (if microsecond (now w) =? 0 then iso_pattern
             else iso_pattern ++ literally "." ++ digits 6)
            stamp = true.
Proof.
  intros Hok. eexists. split; [reflexivity |].
  unfold isoformat.
  destruct (microsecond (now w) =? 0) eqn:Eus.
  - rewrite <- (app_nil_r iso_pattern). now apply isoformat_seconds_fits.
  - apply isoformat_seconds_fits; [assumption |].
    apply (fits_app (literally ".") _ "."); [reflexivity |].
    apply six_digits. apply datetime_ok_bounds in Hok. lia.
Qed.


End Stamps.

(** ** The CSV writer loses nothing *)

Section CsvLossless.

Import PyString CsvReader.

Lemma run_app (a b : string) (st : State) : run (a ++ b) st = run b (run a st).
Proof. revert st. induction a as [| c a IH]; intros st; simpl; [reflexivity | apply IH]. Qed.

Lemma not_special (c : ascii) :
  Csv.special c = false ->
  (nat_of_ascii c =? 44)%nat = false /\ (nat_of_ascii c =? 34)%nat = false
  /\ (nat_of_ascii c =? 13)%nat = false /\ (nat_of_ascii c =? 10)%nat = false.
Proof.
  unfold Csv.special. intros H.
  apply orb_false_elim in H. destruct H as [H H10].
  apply orb_false_elim in H. destruct H as [H H13].
  apply orb_false_elim in H. destruct H as [H44 H34].
  repeat split; assumption.
Qed.

Lemma push_app (cur : string) (c : ascii) (rest : string) :
  (push cur c ++ rest)%string = (cur ++ String c rest)%string.
Proof. unfold push. now rewrite append_assoc. Qed.

Lemma plain_field (f : string) rs fs cur :
  Csv.any_special f = false ->
  run f (mkState rs fs cur Plain) = mkState rs fs (cur ++ f) Plain.
Proof.
  revert cur. induction f as [| c f IH]; intros cur H; simpl.
  - now rewrite append_empty_r.
  - simpl in H. apply orb_false_elim in H. destruct H as [Hc Hf].
    apply not_special in Hc. destruct Hc as (H44 & H34 & H13 & _).
    unfold step. cbn [mode rows fields current]. rewrite H34, H44, H13.
    rewrite IH by assumption. now rewrite push_app.
Qed.

Lemma quoted_body (f : string) rs fs cur :
  run (Csv.double_quotes f) (mkState rs fs cur Quoted) = mkState rs fs (cur ++ f) Quoted.
Proof.
  revert cur. induction f as [| c f IH]; intros cur; simpl.
  - now rewrite append_empty_r.
  - destruct (nat_of_ascii c =? 34)%nat eqn:E; simpl.
    + unfold step at 2. cbn [mode rows fields current]. rewrite E.
      unfold step at 1. cbn [mode rows fields current]. rewrite E.
      rewrite IH. now rewrite push_app.
    + unfold step. cbn [mode rows fields current]. rewrite E.
      rewrite IH. now rewrite push_app.
Qed.

Lemma quoted_field (f : string) rs fs :
  run (Csv.quoted f) (mkState rs fs EmptyString Plain) = mkState rs fs f QuoteSeen.
Proof.
  unfold Csv.quoted. rewrite run_app. simpl run at 2.
  unfold step at 1. cbn [mode rows fields current].
  change (nat_of_ascii (ascii_of_nat 34) =? 34)%nat with true. cbv iota.
  rewrite run_app, quoted_body. reflexivity.
Qed.

Lemma field_written (f : string) rs fs :
  run (Csv.write_field f) (mkState rs fs EmptyString Plain)
  = mkState rs fs f (mode_after f).
Proof.
  unfold Csv.write_field, mode_after. destruct (Csv.any_special f) eqn:E.
  - apply quoted_field.
  - now rewrite plain_field.
Qed.

Lemma after_comma (f : string) rs fs :
  step (mkState rs fs f (mode_after f)) ","
  = mkState rs (fs ++ [f]) EmptyString Plain.
Proof. unfold mode_after. destruct (Csv.any_special f); reflexivity. Qed.

Lemma after_line_end (f : string) rs fs :
  run (carriage_return ++ newline) (mkState rs fs f (mode_after f))
  = start (rs ++ [row_of fs f (mode_after f)]).
Proof. unfold mode_after. destruct (Csv.any_special f); reflexivity. Qed.

Lemma row_of_written (f : string) (fs : list string) :
  (fs = [] -> f <> EmptyString \/ Csv.any_special f = true) ->
  row_of fs f (mode_after f) = fs ++ [f].
Proof.
  intros H. unfold row_of, mode_after.
  destruct (Csv.any_special f) eqn:E; [reflexivity |].
  destruct fs as [| g fs]; [| reflexivity].
  destruct f; [| reflexivity].
  destruct (H eq_refl) as [Hf | Hf]; congruence.
Qed.

Lemma row_written (rest : list string) (f : string) rs fs :
  (fs = [] -> rest = [] -> f <> EmptyString) ->
  run (String.concat "," (map Csv.write_field (f :: rest)) ++ carriage_return ++ newline)
      (mkState rs fs EmptyString Plain)
  = start (rs ++ [fs ++ f :: rest]).
Proof.
  revert f fs. induction rest as [| g rest IH]; intros f fs Hnot.
  - cbn [map String.concat]. rewrite run_app, field_written, after_line_end.
    rewrite row_of_written; [reflexivity |].
    intros Hfs. left. now apply Hnot.
  - change (String.concat "," (map Csv.write_field (f :: g :: rest)))
      with (Csv.write_field f ++ "," ++ String.concat "," (map Csv.write_field (g :: rest)))
             %string.
    rewrite !append_assoc, run_app, field_written.
    change (("," ++ String.concat "," (map Csv.write_field (g :: rest))
             ++ carriage_return ++ newline)%string)
      with (String ","
              (String.concat "," (map Csv.write_field (g :: rest))
               ++ carriage_return ++ newline)%string).
    cbn [run]. rewrite after_comma, IH.
    + now rewrite <- app_assoc.
    + intros Hfs. destruct fs; discriminate.
Qed.

Lemma line_written (row : list string) rs :
  run (Csv.line row) (start rs) = start (rs ++ [row]).
Proof.
  destruct row as [| f rest].
  - reflexivity.
  - destruct rest as [| g rest].
    + destruct f as [| c f].
      * reflexivity.
      * unfold Csv.line, join, start.
        apply row_written with (rest := []) (fs := []).
        intros _ _. discriminate.
    + unfold Csv.line, join, start.
      destruct f; apply row_written with (rest := g :: rest) (fs := []);
        intros _ Hrest; discriminate.
Qed.

Lemma document_written (rows : list (list string)) rs :
  run (csv_document rows) (start rs) = start (rs ++ rows).
Proof.
  revert rs. unfold csv_document.
  induction rows as [| row rows IH]; intros rs; simpl.
  - now rewrite app_nil_r.
  - rewrite run_app, line_written, IH. now rewrite <- app_assoc.
Qed.

Lemma read_back (rows : list (list string)) : read (csv_document rows) = rows.
Proof. unfold read. now rewrite document_written. Qed.

(** X16.  The CSV text keeps every row apart: two lists of rows that give
    the same document are the same list, field for field, whatever
    commas, quotes or line breaks the fields hold.  An exported
    document therefore determines its header and data rows. *)
Theorem csv_document_lossless (rows1 rows2 : list (list string)) :
  csv_document rows1 = csv_document rows2 -> rows1 = rows2.
Proof.
  intros H. rewrite <- (read_back rows1), <- (read_back rows2). now rewrite H.
Qed.

End CsvLossless.

(** ** What every call carries *)

Section CallParameters.

Context {P : Platform}.



End CallParameters.

(** ** The theorems at work on the small platform *)

#[local] Existing Instance Demo.platform.








(** C6 as stated fails: with no API key in the environment, where the
    client dependency answers 500, the health route still reports the key
    as configured. *)
Lemma health_flag_without_key :
  environ Demo.unconfigured "COHERE_API_KEY" = None
  /\ fst (get_cohere_client Demo.unconfigured)
     = Raise (HTTPException 500 "Cohere API key not found")
  /\ fst (get_health Demo.unconfigured)
     = mkHttpResponse 200
         (JsonHealth (mkHealthPayload "healthy" "2024-03-09T12:05:07" "1.0.0" true)).
Proof. repeat split; vm_compute; reflexivity. Qed.

Lemma out_of_bounds_rejected_witness :
  out_of_bounds Demo.raw_no_contact = true
  /\ exists issues,
       issues <> []
       /\ Validate.request email_syntax_ok Demo.raw_no_contact = inl issues
       /\ forall w,
            snd (post_generate_campaigns Demo.raw_no_contact w) = w
            /\ snd (post_export_campaigns_csv Demo.raw_no_contact w) = w
            /\ (falsy (environ w "COHERE_API_KEY") = false ->
                fst (post_generate_campaigns Demo.raw_no_contact w)
                = mkHttpResponse 422 (JsonValidationErrors issues)
                /\ fst (post_export_campaigns_csv Demo.raw_no_contact w)
                   = mkHttpResponse 422 (JsonValidationErrors issues)).
Proof.
  split; [vm_compute; reflexivity |].
  apply (out_of_bounds_rejected Demo.raw_no_contact). vm_compute. reflexivity.
Defined.




(** A few runs, written out. *)

Example eleven_emails_rejected :
  Validate.request email_syntax_ok Demo.raw_eleven_emails
  = inl [mkIssue [LocField "number_of_emails"] (LessEqual 10)].
Proof. reflexivity. Qed.

Example validated_request_runs :
  Validate.request email_syntax_ok (mkRawRequest [Demo.raw_acme] 1) = inr Demo.request1
  /\ fst (post_generate_campaigns (mkRawRequest [Demo.raw_acme] 1) Demo.all_good)
     = mkHttpResponse 200 (JsonCampaigns Demo.response1).
Proof. split; vm_compute; reflexivity. Qed.

Example export_text :
  fst (export_campaigns_csv Demo.request1 Demo.client Demo.all_good)
  = Return
      (mkStreamingResponse
         [ ("Account Name,Email Number,Variant,Subject,Body,Call to Action"
            ++ PyString.carriage_return ++ PyString.newline
            ++ "Acme,Email 1,Variant 1,S1,B1,C1"
            ++ PyString.carriage_return ++ PyString.newline
            ++ "Acme,Email 1,Variant 2,S2,B2,C2"
            ++ PyString.carriage_return ++ PyString.newline)%string ]
         "text/csv"
         [ ("Content-Disposition", "attachment; filename=campaigns_20240309_120507.csv");
           ("Content-Type", "text/csv") ]).
Proof. vm_compute. reflexivity. Qed.

Example comma_is_quoted :
  Csv.line ["Acme, Inc."; "Email 1"]
  = (PyString.dquote ++ "Acme, Inc." ++ PyString.dquote ++ ",Email 1"
     ++ PyString.carriage_return ++ PyString.newline)%string.
Proof. reflexivity. Qed.

Example request_error_detail :
  fst (generate_campaigns Demo.request1 Demo.client Demo.first_fails)
  = Raise
      (HTTPException 500
         ("Error generating campaigns: 500: Error generating campaign for Acme: "
          ++ "500: Error generating email variant: boom")%string).
Proof. vm_compute. reflexivity. Qed.

(** The further theorems at work. *)


Lemma missing_key_answers_500_witness :
  falsy (environ Demo.unconfigured "COHERE_API_KEY") = true
  /\ post_generate_campaigns Demo.raw_request1 Demo.unconfigured
     = (mkHttpResponse 500 (JsonDetail "Cohere API key not found"), Demo.unconfigured)
  /\ post_export_campaigns_csv Demo.raw_request1 Demo.unconfigured
     = (mkHttpResponse 500 (JsonDetail "Cohere API key not found"), Demo.unconfigured).
Proof.
  split; [vm_compute; reflexivity |].
  apply (missing_key_answers_500 Demo.raw_request1 Demo.unconfigured).
  vm_compute. reflexivity.
Defined.



Lemma no_contacts_no_calls_witness :
  contacts Demo.nobody = []
  /\ 0 < 1
  /\ generate_campaign Demo.client Demo.nobody 1 Demo.all_good
     = (Raise (HTTPException 500
                 ("Error generating campaign for " ++ account_name Demo.nobody
                  ++ ": list index out of range")%string),
        Demo.all_good).
Proof.
  split; [reflexivity |]. split; [lia |].
  apply (no_contacts_no_calls Demo.client Demo.nobody Demo.all_good);
    [reflexivity | lia].
Defined.

Lemma no_emails_no_calls_witness :
  0 <= 0
  /\ fst (generate_campaign Demo.client Demo.acme 0 Demo.all_good)
     = Return (mkCampaign (account_name Demo.acme) [])
  /\ calls (snd (generate_campaign Demo.client Demo.acme 0 Demo.all_good))
     = calls Demo.all_good
  /\ service (snd (generate_campaign Demo.client Demo.acme 0 Demo.all_good))
     = service Demo.all_good.
Proof.
  split; [lia |].
  apply (no_emails_no_calls Demo.client Demo.acme Demo.all_good). lia.
Defined.


Lemma prompts_tell_calls_apart_witness :
  build_prompt Demo.acme 1 2 "formal" = Return Demo.acme_formal_prompt
  /\ 1 = 1 /\ "formal" = "formal".
Proof.
  assert (H : build_prompt Demo.acme 1 2 "formal" = Return Demo.acme_formal_prompt)
    by (vm_compute; reflexivity).
  split; [exact H |].
  exact (prompts_tell_calls_apart Demo.acme 1 1 2 "formal" "formal" H H).
Defined.

Lemma health_timestamp_well_formed_witness :
  datetime_ok (now Demo.all_good) = true
  /\ exists stamp,
       fst (get_health Demo.all_good)
       = mkHttpResponse 200 (JsonHealth (mkHealthPayload "healthy" stamp "1.0.0" true))
       /\ fits (if microsecond (now Demo.all_good) =? 0 then iso_pattern
                else iso_pattern ++ literally "." ++ digits 6)
               stamp = true.
Proof.
  split; [reflexivity |].
  apply (health_timestamp_well_formed Demo.all_good). reflexivity.
Defined.


Lemma csv_document_lossless_witness :
  csv_document Demo.tricky_rows = csv_document Demo.tricky_rows
  /\ Demo.tricky_rows = Demo.tricky_rows.
Proof.
  split; [reflexivity |].
  apply (csv_document_lossless Demo.tricky_rows Demo.tricky_rows). reflexivity.
Defined.

Example tricky_rows_read_back :
  CsvReader.read (csv_document Demo.tricky_rows) = Demo.tricky_rows.
Proof. vm_compute. reflexivity. Qed.

Example bad_email_report :
  Validate.request email_syntax_ok Demo.raw_bad_email
  = inl [mkIssue [LocField "accounts"; LocIndex 0; LocField "contacts"; LocIndex 0;
                  LocField "email"] EmailSyntax].
Proof. reflexivity. Qed.
